(** * A shallow embedding of [any.hpp]: the small-buffer type-erased container

    The header defines [Any<SIZE>], a value container that keeps its payload
    either inside an inline buffer of [SIZE] bytes or behind a pointer, and
    dispatches copy, move and destroy through one static table per payload
    type ([VTableT<T>::mVTable]); a second family of tables
    ([VTableT<Handle<T>>::mVTable]) serves the non-owning reference mode.

    The embedding keeps the representation of the source:
    - the anonymous union [{ void *mObject; AlignedStorageT<SIZE> mStorage; }]
      is ONE byte buffer; [mObject] is the view of its first eight bytes,
      [mStorage] the view of the buffer itself, so that a write through one
      member is seen through the other exactly as on the machine;
    - [Any] objects live in a store indexed by object identity, and every
      member function takes the identities of [this] and [other], reads and
      writes fields one statement at a time, so that [a.Swap(a)] aliases;
    - [new] and [delete] act on a free store that also hosts the externally
      owned objects a [Handle] refers to; both leave a trace of events;
    - a payload value is its object representation, a list of [sizeof T]
      bytes; copy construction and assignment of a payload reproduce that
      representation. *)

From Stdlib Require Import NArith.
From Stdlib.Strings Require Import Byte.
From stdpp Require Import gmap strings list.


(** ** Payload types

    A payload type is known by its name and its size; [sizeof] is never zero,
    as in C++.  The types of this universe are the decayed types [T_] that
    the value constructors and [operator=(T &&)] work with.  [Handle<T>] is
    not one of them: an argument of that type selects the constructor and
    the assignment operator of the reference mode. *)

Inductive ty := Ty (name : string) (size : positive).

#[global] Instance ty_eq_dec : EqDecision ty.
Proof. solve_decision. Defined.

Definition sizeof (T : ty) : nat :=
  match T with Ty _ n => Pos.to_nat n end.

(** ** Pointers and their eight-byte representation

    A [void*] is null, the address of an object of the free store (heap
    allocated or externally owned), or the address of the union of an [Any]
    object.  Addresses are numbered so that every 64-bit pattern denotes one
    of the three: zero is null, the even numbers are free-store objects, the
    odd numbers are [Any] buffers. *)

Inductive pointer := nullptr | obj_ptr (k : nat) | storage_ptr (i : nat).

#[global] Instance pointer_eq_dec : EqDecision pointer.
Proof. solve_decision. Defined.

Definition ptr_to_N (p : pointer) : N :=
  match p with
  | nullptr => 0
  | obj_ptr k => 2 * N.of_nat k + 2
  | storage_ptr i => 2 * N.of_nat i + 1
  end.

Definition ptr_of_N (n : N) : pointer :=
  if (n =? 0)%N then nullptr
  else if N.even n then obj_ptr (N.to_nat (n / 2 - 1))
  else storage_ptr (N.to_nat (n / 2)).

Definition byte_of_N (n : N) : byte :=
  default x00 (Byte.of_N (n mod 256)).

(** Little-endian representation of a number on [len] bytes, and back. *)
Fixpoint le_bytes (len : nat) (n : N) : list byte :=
  match len with
  | O => []
  | S len' => byte_of_N n :: le_bytes len' (n / 256)
  end.

Fixpoint le_value (bs : list byte) : N :=
  match bs with
  | [] => 0
  | b :: bs' => Byte.to_N b + 256 * le_value bs'
  end.

(** The size of a pointer. *)
Definition PTR_SIZE : nat := 8.

Definition ptr_bytes (p : pointer) : list byte := le_bytes PTR_SIZE (ptr_to_N p).
Definition bytes_ptr (bs : list byte) : pointer := ptr_of_N (le_value (take PTR_SIZE bs)).

(** A pointer that fits the eight bytes of a pointer slot. *)
Definition addressable (p : pointer) : bool := (ptr_to_N p <? 2 ^ 64)%N.

(** ** The container object *)

(** The address of a static table: [&VTableT<T>::mVTable] for the primary
    template, [&VTableT<Handle<T>>::mVTable] for the partial specialisation.
    There is one object per instantiation, so two addresses are equal exactly
    when they come from the same template at the same type. *)
Inductive VTable := VTableT (T : ty) | VTableT_Handle (T : ty).

#[global] Instance VTable_eq_dec : EqDecision VTable.
Proof. solve_decision. Defined.

(** The three data members.  [mUnion] is the storage of the anonymous union;
    [mObject] and [mStorage] are read and written through it below.  A null
    [mVTable] is [None]. *)
Record Any := mkAny {
  mVTable : option VTable;
  mUnion : list byte;
  mSBO : bool
}.

(** [Handle<T>]: the single member [T *mReference]. *)
Record Handle := mkHandle { mReference : pointer }.

(** ** Program state *)

Inductive event :=
| EvNew (T : ty) (k : nat)             (* [new T(...)] returned object [k] *)
| EvDelete (T : ty) (k : nat)          (* [delete] of object [k] as a [T] *)
| EvDestructor (T : ty) (p : pointer). (* [p->~T()] *)

Record State := mkState {
  anys : gmap nat Any;               (* the live [Any] objects *)
  heap : gmap nat (ty * list byte);  (* free store: dynamic type, representation *)
  trace : list event
}.

Definition is_EvNew (e : event) : bool :=
  match e with EvNew _ _ => true | _ => false end.
Definition is_EvDelete (e : event) : bool :=
  match e with EvDelete _ _ => true | _ => false end.
Definition is_EvDestructor (e : event) : bool :=
  match e with EvDestructor _ _ => true | _ => false end.

(** Numbers of heap allocations, of deallocations and of in-place destructor
    calls recorded in a trace. *)
Definition count_new (tr : list event) : nat := length (List.filter is_EvNew tr).
Definition count_delete (tr : list event) : nat := length (List.filter is_EvDelete tr).
Definition count_destructor (tr : list event) : nat :=
  length (List.filter is_EvDestructor tr).

(** ** The monad of member functions

    A call returns a result and a new state, or has undefined behaviour, or
    lets the allocation failure of [new] propagate. *)

Inductive outcome (A : Type) :=
| Ok (a : A) (s : State)
| Undefined
| BadAlloc.
Arguments Ok {A} a s.
Arguments Undefined {A}.
Arguments BadAlloc {A}.

Definition M (A : Type) : Type := State → outcome A.

Definition ret {A} (a : A) : M A := λ s, Ok a s.

Definition bind {A B} (c : M A) (k : A → M B) : M B :=
  λ s, match c s with
       | Ok a s' => k a s'
       | Undefined => Undefined
       | BadAlloc => BadAlloc
       end.

Notation "x <- c ;; k" := (bind c (λ x, k))
  (at level 100, c at next level, right associativity).
Notation "c ;;; k" := (bind c (λ _, k))
  (at level 100, right associativity).

Definition undefined {A} : M A := λ _, Undefined.

Definition lift_option {A} (o : option A) : M A :=
  match o with Some a => ret a | None => undefined end.

(** ** Access to the members of an [Any] object *)

Definition get_any (this : nat) : M Any :=
  λ s, match anys s !! this with
       | Some a => Ok a s
       | None => Undefined
       end.

Definition put_any (this : nat) (a : Any) : M unit :=
  λ s, match anys s !! this with
       | Some _ => Ok tt (mkState (<[this := a]> (anys s)) (heap s) (trace s))
       | None => Undefined
       end.

Definition get_mVTable (this : nat) : M (option VTable) :=
  a <- get_any this ;; ret (mVTable a).
Definition set_mVTable (this : nat) (vt : option VTable) : M unit :=
  a <- get_any this ;; put_any this (mkAny vt (mUnion a) (mSBO a)).

Definition get_mSBO (this : nat) : M bool :=
  a <- get_any this ;; ret (mSBO a).
Definition set_mSBO (this : nat) (b : bool) : M unit :=
  a <- get_any this ;; put_any this (mkAny (mVTable a) (mUnion a) b).

(** [mStorage] is the buffer of the union. *)
Definition get_mStorage (this : nat) : M (list byte) :=
  a <- get_any this ;; ret (mUnion a).
Definition set_mStorage (this : nat) (u : list byte) : M unit :=
  a <- get_any this ;; put_any this (mkAny (mVTable a) u (mSBO a)).

(** [mObject] is the first [PTR_SIZE] bytes of the same buffer. *)
Definition write_mObject (u : list byte) (p : pointer) : list byte :=
  ptr_bytes p ++ drop PTR_SIZE u.
Definition get_mObject (this : nat) : M pointer :=
  a <- get_any this ;; ret (bytes_ptr (mUnion a)).
Definition set_mObject (this : nat) (p : pointer) : M unit :=
  a <- get_any this ;;
  put_any this (mkAny (mVTable a) (write_mObject (mUnion a) p) (mSBO a)).

(** ** Objects in buffers and in the free store *)

(** The object representation of a [T] at the start of a buffer. *)
Definition read_object (T : ty) (buf : list byte) : option (list byte) :=
  if decide (sizeof T ≤ length buf) then Some (take (sizeof T) buf) else None.

(** Construction of (or assignment to) an object with representation [v] at
    the start of a buffer: the bytes behind it are left alone. *)
Definition write_object (buf v : list byte) : option (list byte) :=
  if decide (length v ≤ length buf) then Some (v ++ drop (length v) buf) else None.

(** The object that lives at an address, with its dynamic type: an object of
    the free store, or the payload constructed in the buffer of an [Any]
    whose flag says inline and whose table is the value table of its type. *)
Definition object_at (s : State) (p : pointer) : option (ty * list byte) :=
  match p with
  | nullptr => None
  | obj_ptr k => heap s !! k
  | storage_ptr i =>
      match anys s !! i with
      | Some a =>
          match mSBO a, mVTable a with
          | true, Some (VTableT T) =>
              match read_object T (mUnion a) with
              | Some v => Some (T, v)
              | None => None
              end
          | _, _ => None
          end
      | None => None
      end
  end.

(** [*static_cast<T*>(p)] read as a value: undefined unless a [T] lives at [p]. *)
Definition load (T : ty) (p : pointer) : M (list byte) :=
  λ s, match object_at s p with
       | Some (U, v) => if decide (U = T) then Ok v s else Undefined
       | None => Undefined
       end.

(** [*static_cast<T*>(p) = v]: the assignment operator of the payload, on the
    [T] that lives at [p]. *)
Definition store (T : ty) (p : pointer) (v : list byte) : M unit :=
  λ s, match object_at s p with
       | Some (U, _) =>
           if decide (U = T) then
             match p with
             | obj_ptr k =>
                 Ok tt (mkState (anys s) (<[k := (T, v)]> (heap s)) (trace s))
             | storage_ptr i =>
                 match anys s !! i with
                 | Some a =>
                     match write_object (mUnion a) v with
                     | Some u =>
                         Ok tt (mkState (<[i := mkAny (mVTable a) u (mSBO a)]> (anys s))
                                        (heap s) (trace s))
                     | None => Undefined
                     end
                 | None => Undefined
                 end
             | nullptr => Undefined
             end
           else Undefined
       | None => Undefined
       end.

(** [new T(v)]: a fresh object of the free store. *)
Definition new_ (T : ty) (v : list byte) : M pointer :=
  λ s, let k := fresh (dom (heap s)) in
       if addressable (obj_ptr k)
       then Ok (obj_ptr k)
               (mkState (anys s) (<[k := (T, v)]> (heap s)) (trace s ++ [EvNew T k]))
       else BadAlloc.

(** [delete static_cast<T*>(p)]: destructor and deallocation; deleting a null
    pointer does nothing. *)
Definition delete_ (T : ty) (p : pointer) : M unit :=
  λ s, match p with
       | nullptr => Ok tt s
       | obj_ptr k =>
           match heap s !! k with
           | Some (U, _) =>
               if decide (U = T)
               then Ok tt (mkState (anys s) (delete k (heap s)) (trace s ++ [EvDelete T k]))
               else Undefined
           | None => Undefined
           end
       | storage_ptr _ => Undefined
       end.

(** [static_cast<T*>(p)->~T()] *)
Definition destructor (T : ty) (p : pointer) : M unit :=
  λ s, Ok tt (mkState (anys s) (heap s) (trace s ++ [EvDestructor T p])).

(** ** The five operations of a table (lines 99-114 and 216-252)

    The two small-buffer operations take the buffers behind [to] and [from]
    and return the new content of the buffer behind [to].  [Move] applies
    [std::move] to a [T const], which selects the copy constructor of [T]:
    the source keeps its value. *)

Definition VTable_Copy (vt : VTable) (from : pointer) : M pointer :=
  match vt with
  | VTableT T => v <- load T from ;; new_ T v
  | VTableT_Handle _ => ret from
  end.

Definition VTable_Copy_SBO (vt : VTable) (to from : list byte) : M (list byte) :=
  match vt with
  | VTableT T => v <- lift_option (read_object T from) ;; lift_option (write_object to v)
  | VTableT_Handle _ => ret to
  end.

Definition VTable_Move (vt : VTable) (from : pointer) : M pointer :=
  match vt with
  | VTableT T => v <- load T from ;; new_ T v
  | VTableT_Handle _ => ret from
  end.

Definition VTable_Move_SBO (vt : VTable) (to from : list byte) : M (list byte) :=
  match vt with
  | VTableT T => v <- lift_option (read_object T from) ;; lift_option (write_object to v)
  | VTableT_Handle _ => ret to
  end.

Definition VTable_Destroy (vt : VTable) (object : pointer) (SBO : bool) : M unit :=
  match vt with
  | VTableT T => if SBO then destructor T object else delete_ T object
  | VTableT_Handle _ => ret tt
  end.

(** A call through [mVTable->]: a null table pointer is undefined. *)
Definition deref_vtable (this : nat) : M VTable :=
  vt <- get_mVTable this ;; lift_option vt.

(** The addresses [mVTable] can be compared with: those of the tables a
    constructor or an assignment stores, and those of the tables of the
    const-qualified instantiations, which are objects of their own that
    nothing stores ([decay_t] strips the qualifier in lines 290, 302 and
    346, and line 134 is ill-formed for a [Handle<const U>]). *)
Inductive table_address :=
| stored_table (vt : VTable)
| VTableT_const (U : ty)
| VTableT_Handle_const (U : ty).

#[global] Instance table_address_eq_dec : EqDecision table_address.
Proof. solve_decision. Defined.

(** ** [Any<SIZE>] *)

Section Any.

Context (SIZE : nat).

(** Bytes of the union: the buffer of [SIZE] bytes, and never less than the
    pointer it shares its storage with.  (Padding behind the two members is
    not represented.) *)
Definition UNION_SIZE : nat := Nat.max SIZE PTR_SIZE.

(** [Any() : mVTable(nullptr), mObject(nullptr), mSBO(false)] (line 117).
    The new object gets an identity no live object has and the identity is
    returned; every other constructor delegates to this one. *)
Definition Any_ctor : M nat :=
  λ s, let this := fresh (dom (anys s)) in
       Ok this
          (mkState
             (<[this := mkAny None (write_mObject (replicate UNION_SIZE x00) nullptr) false]>
                (anys s))
             (heap s) (trace s)).

(** The storage of the object itself goes away at the end of its destructor. *)
Definition end_of_life (this : nat) : M unit :=
  λ s, Ok tt (mkState (delete this (anys s)) (heap s) (trace s)).

(** [explicit operator bool() const] (line 157) *)
Definition operator_bool (this : nat) : M bool :=
  vt <- get_mVTable this ;; ret (bool_decide (vt ≠ None)).

(** [Is<T>()] (lines 161-165) *)
Definition Is (T : ty) (this : nat) : M bool :=
  vt <- get_mVTable this ;;
  ret (bool_decide (vt = Some (VTableT_Handle T)) || bool_decide (vt = Some (VTableT T))).


(** [Get<T>()] (lines 167-181): the reference is returned as the address it
    binds to; nothing is checked and nothing is read. *)
Definition Get (T : ty) (this : nat) : M pointer :=
  sbo <- get_mSBO this ;;
  if sbo then ret (storage_ptr this) else get_mObject this.

(** [TryGet<T>()] (lines 183-201) *)
Definition TryGet (T : ty) (this : nat) : M pointer :=
  same <- Is T this ;;
  if negb same then ret nullptr
  else
    sbo <- get_mSBO this ;;
    if sbo then ret (storage_ptr this) else get_mObject this.

(** [Any(const Any &other)] (lines 255-268) *)
Definition Any_copy (other : nat) : M nat :=
  this <- Any_ctor ;;
  ovt <- get_mVTable other ;;
  match ovt with
  | None => ret this
  | Some vt =>
      osbo <- get_mSBO other ;;
      (if osbo then
         to <- get_mStorage this ;;
         from <- get_mStorage other ;;
         u <- VTable_Copy_SBO vt to from ;;
         set_mStorage this u
       else
         from <- get_mObject other ;;
         p <- VTable_Copy vt from ;;
         set_mObject this p) ;;;
      osbo <- get_mSBO other ;;
      set_mSBO this osbo ;;;
      ovt <- get_mVTable other ;;
      set_mVTable this ovt ;;;
      ret this
  end.

(** [Any(Any &&other)] (lines 270-283) *)
Definition Any_move (other : nat) : M nat :=
  this <- Any_ctor ;;
  ovt <- get_mVTable other ;;
  match ovt with
  | None => ret this
  | Some vt =>
      osbo <- get_mSBO other ;;
      (if osbo then
         to <- get_mStorage this ;;
         from <- get_mStorage other ;;
         u <- VTable_Move_SBO vt to from ;;
         set_mStorage this u
       else
         from <- get_mObject other ;;
         p <- VTable_Move vt from ;;
         set_mObject this p) ;;;
      osbo <- get_mSBO other ;;
      set_mSBO this osbo ;;;
      ovt <- get_mVTable other ;;
      set_mVTable this ovt ;;;
      ret this
  end.

(** [Any(T &&object)], the overload kept when [sizeof(T_) <= SIZE]
    (lines 286-296); [v] is the value of [object]. *)
Definition Any_value_SBO (T_ : ty) (v : list byte) : M nat :=
  this <- Any_ctor ;;
  to <- get_mStorage this ;;
  u <- lift_option (write_object to v) ;;
  set_mStorage this u ;;;
  set_mSBO this true ;;;
  set_mVTable this (Some (VTableT T_)) ;;;
  ret this.

(** [Any(T &&object)], the overload kept when [sizeof(T_) > SIZE]
    (lines 298-308) *)
Definition Any_value_alloc (T_ : ty) (v : list byte) : M nat :=
  this <- Any_ctor ;;
  p <- new_ T_ v ;;
  set_mObject this p ;;;
  set_mSBO this false ;;;
  set_mVTable this (Some (VTableT T_)) ;;;
  ret this.

(** Overload resolution between the two: the [enable_if] conditions of
    lines 124 and 128. *)
Definition Any_value (T_ : ty) (v : list byte) : M nat :=
  if decide (sizeof T_ ≤ SIZE) then Any_value_SBO T_ v else Any_value_alloc T_ v.

(** [Handle(T &object)] (line 52) *)
Definition Handle_of_object (object : pointer) : Handle :=
  mkHandle object.

(** [Handle(const Any<SIZE> &object) : mReference(&object.Get<T>())]
    (lines 54-55).  [object] is const, so the [Get] called is the const one
    of lines 167-174 and its address is a [const T*]; the member
    [T *mReference] can be initialised from it only when [T] is itself
    const-qualified.  The constructor therefore exists at the instantiations
    [Handle<const U>] alone, and [Handle_of_Any U] is the constructor of
    [Handle<const U>]: it wraps the address of [Get<const U>()], in which the
    template argument occurs in the two casts only, so that it is the
    address [Get U] computes; what is read through the handle is the [U]
    that lives there. *)
Definition Handle_of_Any (U : ty) (object : nat) : M Handle :=
  p <- Get U object ;; ret (mkHandle p).

(** [Any(Handle<T> handle)] (lines 131-136) *)
Definition Any_handle (T : ty) (handle : Handle) : M nat :=
  this <- Any_ctor ;;
  set_mObject this (mReference handle) ;;;
  set_mVTable this (Some (VTableT_Handle T)) ;;;
  ret this.

(** [~Any()] (lines 310-320) *)
Definition Any_dtor (this : nat) : M unit :=
  vt <- get_mVTable this ;;
  match vt with
  | Some vt =>
      sbo <- get_mSBO this ;;
      if sbo then VTable_Destroy vt (storage_ptr this) true
      else p <- get_mObject this ;; VTable_Destroy vt p false
  | None => ret tt
  end ;;;
  end_of_life this.

(** [Swap(Any &other)] (lines 397-438) *)
Definition Swap (this other : nat) : M unit :=
  sbo <- get_mSBO this ;;
  (if sbo then
     osbo <- get_mSBO other ;;
     if osbo then
       let storageTemp := replicate UNION_SIZE x00 in
       vt <- deref_vtable this ;;
       from <- get_mStorage this ;;
       storageTemp <- VTable_Move_SBO vt storageTemp from ;;
       ovt <- deref_vtable other ;;
       to <- get_mStorage this ;;
       from <- get_mStorage other ;;
       u <- VTable_Move_SBO ovt to from ;;
       set_mStorage this u ;;;
       vt <- deref_vtable this ;;
       to <- get_mStorage other ;;
       u <- VTable_Move_SBO vt to storageTemp ;;
       set_mStorage other u
     else
       p <- get_mObject other ;;
       set_mObject this p ;;;
       set_mSBO this false ;;;
       vt <- deref_vtable this ;;
       to <- get_mStorage other ;;
       from <- get_mStorage this ;;
       u <- VTable_Move_SBO vt to from ;;
       set_mStorage other u ;;;
       set_mSBO other true
   else
     osbo <- get_mSBO other ;;
     if osbo then
       ovt <- deref_vtable other ;;
       to <- get_mStorage this ;;
       from <- get_mStorage other ;;
       u <- VTable_Move_SBO ovt to from ;;
       set_mStorage this u ;;;
       set_mSBO this true ;;;
       p <- get_mObject this ;;
       set_mObject other p ;;;
       set_mSBO other false
     else
       objectTemp <- get_mObject this ;;
       p <- get_mObject other ;;
       set_mObject this p ;;;
       set_mObject other objectTemp) ;;;
  vTableTemp <- get_mVTable this ;;
  ovt <- get_mVTable other ;;
  set_mVTable this ovt ;;;
  set_mVTable other vTableTemp.

(** The free function [swap(a, b)] (lines 36-40) *)
Definition swap (a b : nat) : M unit := Swap a b.

(** [operator=(const Any &other)] (lines 322-330) *)
Definition assign_copy (this other : nat) : M unit :=
  temp <- Any_copy other ;;
  Swap this temp ;;;
  Any_dtor temp.

(** [operator=(Any &&other)] (lines 332-340) *)
Definition assign_move (this other : nat) : M unit :=
  temp <- Any_move other ;;
  Swap this temp ;;;
  Any_dtor temp.

(** [operator=(Handle<T> handle)] (lines 147-155) *)
Definition assign_handle (this : nat) (T : ty) (handle : Handle) : M unit :=
  temp <- Any_handle T handle ;;
  Swap this temp ;;;
  Any_dtor temp.

(** [operator=(T &&object)] (lines 342-395); [v] is the value of [object]. *)
Definition assign_value (this : nat) (T_ : ty) (v : list byte) : M unit :=
  vt <- get_mVTable this ;;
  match vt with
  | Some vt =>
      same <- Is T_ this ;;
      if same then
        sbo <- get_mSBO this ;;
        if sbo then store T_ (storage_ptr this) v
        else p <- get_mObject this ;; store T_ p v
      else
        sbo <- get_mSBO this ;;
        (if sbo then VTable_Destroy vt (storage_ptr this) true
         else p <- get_mObject this ;; VTable_Destroy vt p false) ;;;
        (if decide (sizeof T_ ≤ SIZE) then
           to <- get_mStorage this ;;
           u <- lift_option (write_object to v) ;;
           set_mStorage this u ;;;
           set_mSBO this true
         else
           p <- new_ T_ v ;;
           set_mObject this p ;;;
           set_mSBO this false) ;;;
        set_mVTable this (Some (VTableT T_))
  | None =>
      (if decide (sizeof T_ < SIZE) then
         to <- get_mStorage this ;;
         u <- lift_option (write_object to v) ;;
         set_mStorage this u ;;;
         set_mSBO this true
       else
         p <- new_ T_ v ;;
         set_mObject this p ;;;
         set_mSBO this false) ;;;
      set_mVTable this (Some (VTableT T_))
  end.

(** ** Observations used to state the properties *)

(** The type a table stands for. *)
Definition held_type (vt : VTable) : ty :=
  match vt with VTableT T | VTableT_Handle T => T end.

(** What a container holds, as its accessors show it: nothing, a value of the
    type of its table read through [Get], or nothing readable. *)
Inductive content :=
| Empty
| Holds (vt : VTable) (v : list byte)
| Broken.

Definition contents (this : nat) (s : State) : content :=
  match get_mVTable this s with
  | Ok None _ => Empty
  | Ok (Some vt) _ =>
      match (p <- Get (held_type vt) this ;; load (held_type vt) p) s with
      | Ok v _ => Holds vt v
      | _ => Broken
      end
  | _ => Broken
  end.

(** A container in one of its three proper states: empty; a value of the
    type of its table constructed in the buffer, which it fits; a value of
    that type in an object of the free store that the pointer slot names; or,
    in reference mode, a pointer slot that names a live object of the type. *)
Definition valid (s : State) (this : nat) : Prop :=
  ∃ a, anys s !! this = Some a
    ∧ length (mUnion a) = UNION_SIZE
    ∧ match mVTable a with
      | None => mSBO a = false
      | Some (VTableT T) =>
          if mSBO a then sizeof T ≤ SIZE
          else ∃ k v, bytes_ptr (mUnion a) = obj_ptr k ∧ heap s !! k = Some (T, v)
      | Some (VTableT_Handle T) =>
          mSBO a = false ∧ ∃ v, object_at s (bytes_ptr (mUnion a)) = Some (T, v)
      end.

(** A container bound to the reference-mode table of [T], its pointer slot
    holding [p]. *)
Definition in_reference_mode (s : State) (this : nat) (T : ty) (p : pointer) : Prop :=
  ∃ a, anys s !! this = Some a
    ∧ mVTable a = Some (VTableT_Handle T)
    ∧ mSBO a = false
    ∧ bytes_ptr (mUnion a) = p.

End Any.

(** The next [new] returns an address that fits a pointer slot. *)
Definition heap_has_room (s : State) : Prop :=
  addressable (obj_ptr (fresh (dom (heap s)))) = true.

(** A container that owns object [k] of the free store: bound to a value
    table, flag not inline, pointer slot naming [k]. *)
Definition owns (s : State) (this : nat) (k : nat) : Prop :=
  ∃ a T, anys s !! this = Some a
    ∧ mVTable a = Some (VTableT T)
    ∧ mSBO a = false
    ∧ bytes_ptr (mUnion a) = obj_ptr k.

(** A container that is not in reference mode. *)
Definition holds_value_or_nothing (s : State) (this : nat) : Prop :=
  ∀ T, get_mVTable this s ≠ Ok (Some (VTableT_Handle T)) s.

(** ** Concrete types, values and states used in the examples *)

Definition T_int : ty := Ty "int" 4.
Definition T_double : ty := Ty "double" 8.
Definition T_Big : ty := Ty "Big" 16.

Definition v42 : list byte := [x2a; x00; x00; x00].
Definition v_double : list byte := [x00; x00; x00; x00; x00; x00; xf0; x3f].
Definition v_Big : list byte := replicate 16 x11.

(** Nothing constructed yet. *)
Definition s_init : State := mkState ∅ ∅ [].

(** An externally owned [int x = 42] at object 0 of the free store. *)
Definition s_extern : State := mkState ∅ {[0 := (T_int, v42)]} [].

(** [Any<8> a(42)]: object 0 holds the [int] in its buffer. *)
Definition s_inline : State :=
  mkState {[0 := mkAny (Some (VTableT T_int)) (v42 ++ replicate 4 x00) true]} ∅ [].

(** [int x = 42; Any<8> a(Handle<int>(x))]: object 0 refers to [x]. *)
Definition s_reference : State :=
  mkState {[0 := mkAny (Some (VTableT_Handle T_int)) (ptr_bytes (obj_ptr 0)) false]}
          {[0 := (T_int, v42)]} [].

(** [Any<8> a(42); Any<8> b(Big{...});] *)
Definition two_containers : M (nat * nat) :=
  a <- Any_value 8 T_int v42 ;;
  b <- Any_value 8 T_Big v_Big ;;
  ret (a, b).



Definition v7 : list byte := [x07; x00; x00; x00].
Definition v_Big' : list byte := replicate 16 x22.

(** The records of a container that holds [v] in its buffer of 8 bytes, of
    one that owns object [k] of type [T], and of an empty one. *)
Definition inline_int (v : list byte) : Any :=
  mkAny (Some (VTableT T_int)) (v ++ replicate 4 x00) true.
Definition heap_of (T : ty) (k : nat) : Any :=
  mkAny (Some (VTableT T)) (ptr_bytes (obj_ptr k)) false.
Definition empty_any : Any := mkAny None (replicate 8 x00) false.

(** [Any<8> a;] *)
Definition s_empty : State := mkState {[0 := empty_any]} ∅ [].

(** [Any<8> a(Big{...});] *)
Definition s_heap : State :=
  mkState {[0 := heap_of T_Big 0]} {[0 := (T_Big, v_Big)]} [].

(** [Any<8> a(42), b(7);] *)
Definition s_two_inline : State :=
  mkState (<[1 := inline_int v7]> {[0 := inline_int v42]}) ∅ [].

(** [Any<8> a(Big{...}), b(Big{...});] *)
Definition s_two_heap : State :=
  mkState (<[1 := heap_of T_Big 1]> {[0 := heap_of T_Big 0]})
          (<[1 := (T_Big, v_Big')]> {[0 := (T_Big, v_Big)]}) [].

(** [Any<8> a, b(42);] *)
Definition s_empty_inline : State :=
  mkState (<[1 := inline_int v42]> {[0 := empty_any]}) ∅ [].

(** [Any<8> a(Big{...}), b(42);] *)
Definition s_heap_inline : State :=
  mkState (<[1 := inline_int v42]> {[0 := heap_of T_Big 0]}) {[0 := (T_Big, v_Big)]} [].

(** [int x = 42; Any<8> a(Big{...});] with [x] at object 1. *)
Definition s_heap_extern : State :=
  mkState {[0 := heap_of T_Big 0]} (<[1 := (T_int, v42)]> {[0 := (T_Big, v_Big)]}) [].

(** * Properties *)

(** ** The representation of pointers *)

Lemma byte_to_of_N (n : N) : Byte.to_N (byte_of_N n) = (n mod 256)%N.
Proof.
  unfold byte_of_N.
  destruct (Byte.of_N (n mod 256)) as [b|] eqn:E.
  - simpl. by apply Byte.to_of_N.
  - apply Byte.of_N_None_iff in E.
    pose proof (N.mod_upper_bound n 256). lia.
Qed.

Lemma le_value_le_bytes (len : nat) (n : N) :
  le_value (le_bytes len n) = (n mod 256 ^ N.of_nat len)%N.
Proof.
  revert n. induction len as [|len IH]; intros n.
  - simpl. by rewrite N.mod_1_r.
  - cbn [le_bytes le_value]. rewrite byte_to_of_N, IH.
    rewrite Nat2N.inj_succ, N.pow_succ_r'.
    rewrite N.Div0.mod_mul_r. lia.
Qed.

Lemma length_le_bytes (len : nat) (n : N) : length (le_bytes len n) = len.
Proof. revert n. induction len; intros; simpl; auto. Qed.

Lemma le_bytes_le_value (bs : list byte) : le_bytes (length bs) (le_value bs) = bs.
Proof.
  induction bs as [|b bs IH]; [done|].
  cbn [length le_value le_bytes]. pose proof (Byte.to_N_bounded b).
  f_equal.
  - unfold byte_of_N.
    rewrite <- (N.mod_unique (Byte.to_N b + 256 * le_value bs) 256 (le_value bs) (Byte.to_N b))
      by lia.
    by rewrite Byte.of_to_N.
  - rewrite <- (N.div_unique (Byte.to_N b + 256 * le_value bs) 256 (le_value bs) (Byte.to_N b))
      by lia.
    exact IH.
Qed.

Lemma le_value_bound (bs : list byte) : (le_value bs < 256 ^ N.of_nat (length bs))%N.
Proof.
  induction bs as [|b bs IH]; [cbn; lia|].
  cbn [length le_value]. pose proof (Byte.to_N_bounded b).
  rewrite Nat2N.inj_succ, N.pow_succ_r'. lia.
Qed.

Lemma ptr_of_to_N (p : pointer) : ptr_of_N (ptr_to_N p) = p.
Proof.
  destruct p as [|k|i]; unfold ptr_of_N, ptr_to_N.
  - done.
  - destruct (N.eqb_spec (2 * N.of_nat k + 2) 0) as [E|_]; [lia|].
    replace (2 * N.of_nat k + 2)%N with (2 * (N.of_nat k + 1))%N by lia.
    rewrite N.even_mul, (N.mul_comm 2), N.div_mul by lia.
    cbn [N.even orb]. f_equal. lia.
  - destruct (N.eqb_spec (2 * N.of_nat i + 1) 0) as [E|_]; [lia|].
    rewrite <- (N.div_unique (2 * N.of_nat i + 1) 2 (N.of_nat i) 1) by lia.
    rewrite N.add_comm, N.even_add_mul_2.
    cbn [N.even]. f_equal. lia.
Qed.

Lemma ptr_to_of_N (n : N) : ptr_to_N (ptr_of_N n) = n.
Proof.
  unfold ptr_of_N. destruct (N.eqb_spec n 0) as [->|Hn]; [done|].
  destruct (N.even n) eqn:Ev; cbn [ptr_to_N].
  - apply N.even_spec in Ev as [m ->].
    rewrite <- (N.div_unique (2 * m) 2 m 0) by lia. lia.
  - assert (Hodd : N.odd n = true) by (by rewrite <- N.negb_even, Ev).
    apply N.odd_spec in Hodd as [m ->].
    rewrite <- (N.div_unique (2 * m + 1) 2 m 1) by lia. lia.
Qed.

(** What is written through [mObject] is read back through [mObject]. *)
Lemma bytes_ptr_write_mObject (u : list byte) (p : pointer) :
  addressable p = true → bytes_ptr (write_mObject u p) = p.
Proof.
  intros Hp. unfold bytes_ptr, write_mObject, ptr_bytes.
  rewrite take_app_length' by (symmetry; apply length_le_bytes).
  rewrite le_value_le_bytes.
  unfold addressable in Hp. apply N.ltb_lt in Hp.
  rewrite N.mod_small by (exact Hp).
  apply ptr_of_to_N.
Qed.

Lemma length_write_mObject (u : list byte) (p : pointer) :
  PTR_SIZE ≤ length u → length (write_mObject u p) = length u.
Proof.
  intros. unfold write_mObject, ptr_bytes.
  rewrite length_app, length_le_bytes, length_drop. lia.
Qed.

(** Writing back the pointer a slot already holds changes nothing. *)
Lemma write_mObject_bytes_ptr (u : list byte) :
  PTR_SIZE ≤ length u → write_mObject u (bytes_ptr u) = u.
Proof.
  intros Hu. unfold write_mObject, bytes_ptr, ptr_bytes.
  rewrite ptr_to_of_N.
  assert (Hl : length (take PTR_SIZE u) = PTR_SIZE) by (rewrite length_take; lia).
  rewrite <- Hl at 1. rewrite le_bytes_le_value. apply take_drop.
Qed.

Lemma addressable_bytes_ptr (u : list byte) : addressable (bytes_ptr u) = true.
Proof.
  unfold addressable, bytes_ptr. rewrite ptr_to_of_N. apply N.ltb_lt.
  pose proof (le_value_bound (take PTR_SIZE u)) as Hb.
  eapply N.lt_le_trans; [exact Hb|].
  replace (2 ^ 64)%N with (256 ^ 8)%N by reflexivity.
  apply N.pow_le_mono_r; [lia|].
  rewrite length_take. unfold PTR_SIZE. lia.
Qed.

(** ** Buffers *)

Lemma length_replicate_union (SIZE : nat) (p : pointer) :
  length (write_mObject (replicate (UNION_SIZE SIZE) x00) p) = UNION_SIZE SIZE.
Proof.
  rewrite length_write_mObject; rewrite length_replicate; unfold UNION_SIZE; lia.
Qed.

Lemma union_fits (SIZE : nat) (T : ty) : sizeof T ≤ SIZE → sizeof T ≤ UNION_SIZE SIZE.
Proof. unfold UNION_SIZE. lia. Qed.

Lemma read_object_fits (T : ty) (buf : list byte) :
  sizeof T ≤ length buf → read_object T buf = Some (take (sizeof T) buf).
Proof. intros. unfold read_object. by rewrite decide_True. Qed.

Lemma write_object_fits (buf v : list byte) :
  length v ≤ length buf → write_object buf v = Some (v ++ drop (length v) buf).
Proof. intros. unfold write_object. by rewrite decide_True. Qed.

(** An object constructed in a buffer is read back from it. *)
Lemma read_write_object (T : ty) (buf v : list byte) :
  length v = sizeof T → length v ≤ length buf →
  ∃ u, write_object buf v = Some u ∧ read_object T u = Some v ∧ length u = length buf.
Proof.
  intros Hv Hle. unfold write_object, read_object.
  rewrite decide_True by done.
  eexists; split; [done|].
  rewrite length_app, length_drop.
  rewrite decide_True by lia.
  split; [|lia].
  rewrite <- Hv. by rewrite take_app_length.
Qed.

(** ** Fresh identities and addresses *)

Lemma fresh_any_None (A : gmap nat Any) : A !! fresh (dom A) = None.
Proof. apply not_elem_of_dom, is_fresh. Qed.

Lemma fresh_heap_None (H : gmap nat (ty * list byte)) : H !! fresh (dom H) = None.
Proof. apply not_elem_of_dom, is_fresh. Qed.

Lemma fresh_any_ne (A : gmap nat Any) (i : nat) (a : Any) :
  A !! i = Some a → fresh (dom A) ≠ i.
Proof. intros Hi E. rewrite <- E, fresh_any_None in Hi. done. Qed.

Lemma fresh_heap_ne (H : gmap nat (ty * list byte)) (k : nat) (c : ty * list byte) :
  H !! k = Some c → fresh (dom H) ≠ k.
Proof. intros Hk E. rewrite <- E, fresh_heap_None in Hk. done. Qed.

Lemma fresh_list_le (l : list nat) (n : nat) :
  fresh l ≤ n ↔ ∀ x, x ∈ l → x < n.
Proof.
  change (fresh l) with (foldr (Nat.max ∘ S) 0 l).
  induction l as [|y l IH]; cbn [foldr compose].
  - split; [intros _ x Hx; by apply elem_of_nil in Hx|intros; lia].
  - rewrite Nat.max_lub_iff, IH. setoid_rewrite elem_of_cons.
    split.
    + intros [? ?] x [->|?]; [lia|auto].
    + intros Hx; split; [apply (Hx y); by left|intros x ?; apply Hx; by right].
Qed.

Lemma fresh_nat_le (X : gset nat) (n : nat) :
  fresh X ≤ n ↔ ∀ x, x ∈ X → x < n.
Proof.
  change (fresh X) with (fresh (elements X)). rewrite fresh_list_le.
  by setoid_rewrite elem_of_elements.
Qed.

Lemma fresh_nat_mono (X Y : gset nat) : X ⊆ Y → fresh X ≤ fresh Y.
Proof.
  intros HXY. apply fresh_nat_le. intros x Hx.
  by apply (proj1 (fresh_nat_le Y (fresh Y)) (le_n _)), HXY.
Qed.

(** Releasing an object does not use up address space. *)
Lemma heap_has_room_delete A H tr k tr' :
  heap_has_room (mkState A H tr) → heap_has_room (mkState A (delete k H) tr').
Proof.
  unfold heap_has_room, addressable. cbn [heap ptr_to_N]. intros Hr.
  apply N.ltb_lt in Hr. apply N.ltb_lt.
  assert (fresh (dom (delete k H)) ≤ fresh (dom H)).
  { apply fresh_nat_mono, subseteq_dom, delete_subseteq. }
  lia.
Qed.

(** ** Counting events *)

Lemma count_new_app (tr1 tr2 : list event) :
  count_new (tr1 ++ tr2) = count_new tr1 + count_new tr2.
Proof. unfold count_new. by rewrite List.filter_app, length_app. Qed.

Lemma count_delete_app (tr1 tr2 : list event) :
  count_delete (tr1 ++ tr2) = count_delete tr1 + count_delete tr2.
Proof. unfold count_delete. by rewrite List.filter_app, length_app. Qed.

Ltac count :=
  unfold count_new, count_delete, count_destructor;
  rewrite ?List.filter_app, ?length_app; cbn; lia.

(** ** Running a member function on a symbolic state

    [run] unfolds the calls of the goal down to the lookups in the two stores
    and resolves them with the facts at hand; [len] settles the side
    conditions on buffer lengths, [buf] the buffers themselves. *)

Ltac unfold_prog :=
  repeat progress unfold swap, Handle_of_Any, Handle_of_object, Any_value,
    Any_value_SBO, Any_value_alloc, Any_handle, Any_copy, Any_move,
    Any_dtor, Any_ctor, end_of_life, operator_bool, Is, Get, TryGet, Swap,
    assign_copy, assign_move, assign_value, assign_handle, deref_vtable,
    VTable_Copy, VTable_Copy_SBO, VTable_Move, VTable_Move_SBO, VTable_Destroy,
    get_mVTable, set_mVTable, get_mSBO, set_mSBO, get_mStorage, set_mStorage,
    get_mObject, set_mObject, get_any, put_any, load, store, object_at, new_, delete_,
    destructor, lift_option, undefined, bind, ret.

Ltac len :=
  repeat first
    [ rewrite length_app | rewrite length_take | rewrite length_drop
    | rewrite length_replicate | rewrite length_replicate_union
    | rewrite length_write_mObject ];
  unfold UNION_SIZE, PTR_SIZE in *; lia.

Ltac buf :=
  repeat first
    [ rewrite length_take_le by len
    | rewrite take_app_length' by len
    | rewrite take_drop ].

Ltac run_step :=
  first
    [ rewrite lookup_insert_eq
    | rewrite lookup_insert_ne by congruence
    | rewrite lookup_delete_eq
    | rewrite lookup_delete_ne by congruence
    | match goal with
      | H : ?m !! ?i = _ |- context [?m !! ?i] => rewrite H
      end
    | progress cbn beta iota zeta delta [anys heap trace mVTable mUnion mSBO mReference]
    | rewrite decide_True by (done || lia)
    | rewrite decide_False by (done || congruence || lia)
    | rewrite bool_decide_eq_true_2 by (done || congruence)
    | rewrite bool_decide_eq_false_2 by (done || congruence)
    | match goal with
      | H : addressable ?p = true |- context [bytes_ptr (write_mObject ?u ?p)] =>
          rewrite (bytes_ptr_write_mObject u p H)
      end
    | rewrite (bytes_ptr_write_mObject _ nullptr) by reflexivity
    | match goal with
      | H : bytes_ptr ?u = _ |- context [bytes_ptr ?u] => rewrite H
      end
    | progress cbn [negb orb andb]
    | rewrite read_object_fits by len
    | rewrite write_object_fits by len
    | rewrite write_mObject_bytes_ptr by len
    | rewrite bytes_ptr_write_mObject by apply addressable_bytes_ptr
    | rewrite insert_insert_eq ].

Ltac run := unfold_prog; repeat run_step.

(** ** What a container in a proper state holds *)

Lemma contents_inline SIZE s this a T :
  anys s !! this = Some a →
  mVTable a = Some (VTableT T) →
  mSBO a = true →
  length (mUnion a) = UNION_SIZE SIZE →
  sizeof T ≤ SIZE →
  contents this s = Holds (VTableT T) (take (sizeof T) (mUnion a)).
Proof.
  intros Ha Hvt Hsbo Hlen Hfit. destruct s as [A H tr], a as [vt u sbo].
  cbn [anys mVTable mSBO mUnion] in *. subst.
  unfold contents. by run.
Qed.

Lemma contents_heap s this a T k v :
  anys s !! this = Some a →
  mVTable a = Some (VTableT T) →
  mSBO a = false →
  bytes_ptr (mUnion a) = obj_ptr k →
  heap s !! k = Some (T, v) →
  contents this s = Holds (VTableT T) v.
Proof.
  intros Ha Hvt Hsbo Hp Hk. destruct s as [A H tr], a as [vt u sbo].
  cbn [anys heap mVTable mSBO mUnion] in *. subst.
  unfold contents. by run.
Qed.

Lemma contents_reference s this a T v :
  anys s !! this = Some a →
  mVTable a = Some (VTableT_Handle T) →
  mSBO a = false →
  object_at s (bytes_ptr (mUnion a)) = Some (T, v) →
  contents this s = Holds (VTableT_Handle T) v.
Proof.
  intros Ha Hvt Hsbo Hobj. destruct s as [A H tr], a as [vt u sbo].
  cbn [anys mVTable mSBO mUnion] in *. subst.
  unfold contents. run.
  unfold object_at in Hobj. cbn [anys heap] in Hobj. rewrite Hobj. by run.
Qed.

(** ** [Swap], mode by mode *)

(** X6: both payloads in their buffers: the three moves through
    [storageTemp] exchange them. *)
Lemma swap_inline_inline SIZE a b s ra rb Ta Tb :
  a ≠ b →
  anys s !! a = Some ra → anys s !! b = Some rb →
  mVTable ra = Some (VTableT Ta) → mVTable rb = Some (VTableT Tb) →
  mSBO ra = true → mSBO rb = true →
  length (mUnion ra) = UNION_SIZE SIZE → length (mUnion rb) = UNION_SIZE SIZE →
  sizeof Ta ≤ SIZE → sizeof Tb ≤ SIZE →
  ∃ s', swap SIZE a b s = Ok tt s'
    ∧ contents a s' = contents b s
    ∧ contents b s' = contents a s
    ∧ contents a s = Holds (VTableT Ta) (take (sizeof Ta) (mUnion ra))
    ∧ contents b s = Holds (VTableT Tb) (take (sizeof Tb) (mUnion rb)).
Proof.
  intros Hab Ha Hb Hta Htb Hsa Hsb Hla Hlb Hfa Hfb.
  rewrite (contents_inline SIZE s a ra Ta), (contents_inline SIZE s b rb Tb) by done.
  destruct s as [A H tr], ra as [vta ua sa], rb as [vtb ub sb].
  cbn [anys mVTable mSBO mUnion] in *. subst.
  assert (Hba : b ≠ a) by done.
  eexists. split; [run; buf; reflexivity|].
  split; [|split; [|done]].
  - erewrite (contents_inline SIZE _ a); [|by run|done|done|cbn [mUnion]; len|done].
    cbn [mUnion]. by buf.
  - erewrite (contents_inline SIZE _ b); [|by run|done|done|cbn [mUnion]; len|done].
    cbn [mUnion]. by buf.
Qed.

(** Both payloads in the free store: the two pointers are exchanged. *)
Lemma swap_heap_heap SIZE a b s ra rb Ta Tb ka kb va vb :
  a ≠ b →
  anys s !! a = Some ra → anys s !! b = Some rb →
  mVTable ra = Some (VTableT Ta) → mVTable rb = Some (VTableT Tb) →
  mSBO ra = false → mSBO rb = false →
  bytes_ptr (mUnion ra) = obj_ptr ka → bytes_ptr (mUnion rb) = obj_ptr kb →
  heap s !! ka = Some (Ta, va) → heap s !! kb = Some (Tb, vb) →
  ∃ s', swap SIZE a b s = Ok tt s'
    ∧ contents a s' = contents b s
    ∧ contents b s' = contents a s
    ∧ contents a s = Holds (VTableT Ta) va
    ∧ contents b s = Holds (VTableT Tb) vb
    ∧ heap s' = heap s ∧ trace s' = trace s.
Proof.
  intros Hab Ha Hb Hta Htb Hsa Hsb Hpa Hpb Hka Hkb.
  rewrite (contents_heap s a ra Ta ka va), (contents_heap s b rb Tb kb vb) by done.
  destruct s as [A H tr], ra as [vta ua sa], rb as [vtb ub sb].
  cbn [anys heap mVTable mSBO mUnion] in *. subst.
  assert (Hba : b ≠ a) by done.
  assert (Haa : addressable (obj_ptr ka) = true)
    by (rewrite <- Hpa; apply addressable_bytes_ptr).
  assert (Hab' : addressable (obj_ptr kb) = true)
    by (rewrite <- Hpb; apply addressable_bytes_ptr).
  eexists. split; [run; reflexivity|].
  split; [|split; [|done]].
  - eapply contents_heap; [by run|done|done| |done]. cbn [mUnion]. by run.
  - eapply contents_heap; [by run|done|done| |done]. cbn [mUnion]. by run.
Qed.

(** [this] in its buffer, [other] in the free store (lines 410-417): the
    pointer of [other] is written over the start of the buffer of [this]
    before the payload of [this] is moved out of it, so [other] receives a
    payload whose first bytes are those of the pointer. *)
Lemma swap_inline_heap SIZE a b s ra rb Ta Tb kb vb :
  a ≠ b →
  anys s !! a = Some ra → anys s !! b = Some rb →
  mVTable ra = Some (VTableT Ta) → mVTable rb = Some (VTableT Tb) →
  mSBO ra = true → mSBO rb = false →
  length (mUnion ra) = UNION_SIZE SIZE → length (mUnion rb) = UNION_SIZE SIZE →
  sizeof Ta ≤ SIZE →
  bytes_ptr (mUnion rb) = obj_ptr kb →
  heap s !! kb = Some (Tb, vb) →
  ∃ s', swap SIZE a b s = Ok tt s'
    ∧ contents a s' = Holds (VTableT Tb) vb
    ∧ contents b s' =
        Holds (VTableT Ta) (take (sizeof Ta) (write_mObject (mUnion ra) (obj_ptr kb))).
Proof.
  intros Hab Ha Hb Hta Htb Hsa Hsb Hla Hlb Hfa Hpb Hkb.
  destruct s as [A H tr], ra as [vta ua sa], rb as [vtb ub sb].
  cbn [anys heap mVTable mSBO mUnion] in *. subst.
  assert (Hba : b ≠ a) by done.
  assert (Hab' : addressable (obj_ptr kb) = true)
    by (rewrite <- Hpb; apply addressable_bytes_ptr).
  eexists. split; [run; reflexivity|].
  split.
  - eapply contents_heap; [by run|done|done| |done]. cbn [mUnion]. by run.
  - erewrite (contents_inline SIZE _ b); [|by run|done|done|cbn [mUnion]; len|done].
    cbn [mUnion]. by buf.
Qed.

(** [this] in the free store, [other] in its buffer (lines 419-426): the
    payload of [other] is moved over the pointer slot of [this] before that
    pointer is copied, so [other] receives the start of the payload as its
    pointer. *)
Lemma swap_heap_inline SIZE a b s ra rb Ta Tb :
  a ≠ b →
  anys s !! a = Some ra → anys s !! b = Some rb →
  mVTable ra = Some (VTableT Ta) → mVTable rb = Some (VTableT Tb) →
  mSBO ra = false → mSBO rb = true →
  length (mUnion ra) = UNION_SIZE SIZE → length (mUnion rb) = UNION_SIZE SIZE →
  sizeof Tb ≤ SIZE →
  ∃ s' rb', swap SIZE a b s = Ok tt s'
    ∧ contents a s' = Holds (VTableT Tb) (take (sizeof Tb) (mUnion rb))
    ∧ anys s' !! b = Some rb'
    ∧ mVTable rb' = Some (VTableT Ta)
    ∧ mSBO rb' = false
    ∧ bytes_ptr (mUnion rb') =
        bytes_ptr (take (sizeof Tb) (mUnion rb) ++ drop (sizeof Tb) (mUnion ra)).
Proof.
  intros Hab Ha Hb Hta Htb Hsa Hsb Hla Hlb Hfb.
  destruct s as [A H tr], ra as [vta ua sa], rb as [vtb ub sb].
  cbn [anys heap mVTable mSBO mUnion] in *. subst.
  assert (Hba : b ≠ a) by done.
  eexists _, _. split; [run; reflexivity|].
  split.
  - erewrite (contents_inline SIZE _ a); [|by run|done|done|cbn [mUnion]; len|done].
    cbn [mUnion]. by buf.
  - split; [by run|]. cbn [mVTable mSBO mUnion]. split; [done|]. split; [done|].
    rewrite bytes_ptr_write_mObject by apply addressable_bytes_ptr. by buf.
Qed.

(** A container swapped with itself is left as it was. *)
Lemma self_swap SIZE a s : valid SIZE s a → Swap SIZE a a s = Ok tt s.
Proof.
  intros (r & Ha & Hlen & Hst).
  destruct s as [A H tr]. cbn [anys heap] in *.
  destruct r as [vt u sbo]. cbn [mVTable mSBO mUnion] in *.
  destruct vt as [[T|T]|], sbo; try (by destruct Hst); try done; run; buf;
    by rewrite insert_id.
Qed.

(** ** [operator=(T &&)], branch by branch *)

(** X11: the container holds another type (lines 357-376): the table is
    rebound, the new object is placed in the buffer exactly when
    [sizeof(T_) <= SIZE], and the container holds the value. *)
Lemma assign_value_other_type SIZE this s T v :
  valid SIZE s this →
  operator_bool this s = Ok true s →
  Is T this s = Ok false s →
  length v = sizeof T →
  heap_has_room s →
  ∃ s', assign_value SIZE this T v s = Ok tt s'
    ∧ get_mVTable this s' = Ok (Some (VTableT T)) s'
    ∧ get_mSBO this s' = Ok (bool_decide (sizeof T ≤ SIZE)) s'
    ∧ contents this s' = Holds (VTableT T) v.
Proof.
  intros (r & Hr & Hlen & Hst) Hne HIs Hv Hroom.
  destruct s as [A H tr], r as [vt u sbo]. unfold heap_has_room in Hroom.
  cbn [anys heap mVTable mSBO mUnion] in *.
  revert Hne HIs. run. intros Hne HIs.
  destruct vt as [[U|U]|]; [| |done].
  - assert (HU : U ≠ T).
    { intros ->. rewrite bool_decide_eq_false_2 in HIs by congruence.
      by rewrite bool_decide_eq_true_2 in HIs. }
    destruct sbo.
    + destruct (decide (sizeof T ≤ SIZE)) as [Hle|Hgt].
      * eexists. split; [by run|].
        split; [by run|]. split; [run; by rewrite ?bool_decide_eq_true_2|].
        erewrite (contents_inline SIZE _ this); [|by run|done|done|cbn [mUnion]; len|lia].
        cbn [mUnion]. rewrite <- Hv. by rewrite take_app_length.
      * eexists. split; [run; rewrite Hroom; by run|].
        split; [by run|]. split; [run; by rewrite ?bool_decide_eq_false_2 by lia|].
        eapply contents_heap; [by run|done|done| |by run]. cbn [mUnion]. by run.
    + destruct Hst as (k & v0 & Hp & Hk).
      destruct (decide (sizeof T ≤ SIZE)) as [Hle|Hgt].
      * eexists. split; [by run|].
        split; [by run|]. split; [run; by rewrite ?bool_decide_eq_true_2|].
        erewrite (contents_inline SIZE _ this); [|by run|done|done|cbn [mUnion]; len|lia].
        cbn [mUnion]. rewrite <- Hv. by rewrite take_app_length.
      * assert (Hroom' : addressable (obj_ptr (fresh (dom (delete k H)))) = true).
        { apply (heap_has_room_delete A H tr k tr). exact Hroom. }
        eexists. split; [run; rewrite Hroom'; by run|].
        split; [by run|]. split; [run; by rewrite ?bool_decide_eq_false_2 by lia|].
        eapply contents_heap; [by run|done|done| |by run]. cbn [mUnion]. by run.
  - destruct Hst as (-> & v0 & Hobj).
    assert (HU : U ≠ T).
    { intros ->. by rewrite bool_decide_eq_true_2 in HIs. }
    destruct (decide (sizeof T ≤ SIZE)) as [Hle|Hgt].
    + eexists. split; [by run|].
      split; [by run|]. split; [run; by rewrite ?bool_decide_eq_true_2|].
      erewrite (contents_inline SIZE _ this); [|by run|done|done|cbn [mUnion]; len|lia].
      cbn [mUnion]. rewrite <- Hv. by rewrite take_app_length.
    + eexists. split; [run; rewrite Hroom; by run|].
      split; [by run|]. split; [run; by rewrite ?bool_decide_eq_false_2 by lia|].
      eapply contents_heap; [by run|done|done| |by run]. cbn [mUnion]. by run.
Qed.

(** X12: the container is empty (lines 378-392): the table is bound, the new
    object is placed in the buffer exactly when [sizeof(T_) < SIZE], and
    the container holds the value. *)
Lemma assign_value_empty SIZE this s r T v :
  anys s !! this = Some r →
  mVTable r = None →
  length (mUnion r) = UNION_SIZE SIZE →
  length v = sizeof T →
  heap_has_room s →
  ∃ s', assign_value SIZE this T v s = Ok tt s'
    ∧ get_mVTable this s' = Ok (Some (VTableT T)) s'
    ∧ get_mSBO this s' = Ok (bool_decide (sizeof T < SIZE)) s'
    ∧ contents this s' = Holds (VTableT T) v.
Proof.
  intros Hr Hvt Hlen Hv Hroom.
  destruct s as [A H tr], r as [vt u sbo]. unfold heap_has_room in Hroom.
  cbn [anys heap mVTable mSBO mUnion] in *. subst.
  destruct (decide (sizeof T < SIZE)) as [Hlt|Hge].
  - eexists. split; [by run|].
    split; [by run|]. split; [run; by rewrite ?bool_decide_eq_true_2|].
    erewrite (contents_inline SIZE _ this); [|by run|done|done|cbn [mUnion]; len|lia].
    cbn [mUnion]. rewrite <- Hv. by rewrite take_app_length.
  - eexists. split; [run; rewrite Hroom; by run|].
    split; [by run|]. split; [run; by rewrite ?bool_decide_eq_false_2 by lia|].
    eapply contents_heap; [by run|done|done| |by run]. cbn [mUnion]. by run.
Qed.

(** * Properties of the specification, claim by claim *)

(** C1 (swap across the four storage-mode combinations), evaluated where the
    code departs from it: with [a] holding the [int] 42 in its buffer and [b]
    holding a 16-byte object in the free store, [swap(a, b)] leaves the
    object of [b] in [a], but [b] does not hold 42: the first bytes of its
    [int] are the bytes of the pointer that line 412 wrote over the buffer of
    [a] before line 415 moved the payload out of it. *)
Theorem swap_inline_heap_loses_payload :
  ∃ a b s s', two_containers s_init = Ok (a, b) s
    ∧ a ≠ b
    ∧ get_mSBO a s = Ok true s
    ∧ get_mSBO b s = Ok false s
    ∧ contents a s = Holds (VTableT T_int) v42
    ∧ contents b s = Holds (VTableT T_Big) v_Big
    ∧ swap 8 a b s = Ok tt s'
    ∧ contents a s' = Holds (VTableT T_Big) v_Big
    ∧ contents b s' = Holds (VTableT T_int) [x02; x00; x00; x00]
    ∧ contents b s' ≠ contents a s.
Proof.
  exists 0, 1. eexists _, _.
  split; [vm_compute; reflexivity|].
  split; [done|].
  repeat split; try (vm_compute; reflexivity).
  vm_compute. discriminate.
Qed.

(** The same two containers swapped the other way round, [swap(b, a)]: the
    [int] reaches [b], but the pointer slot handed to [a] is read after the
    payload has been moved over it (lines 421-424), so [a] names no object
    and the 16-byte object is lost. *)
Lemma swap_heap_inline_loses_pointer :
  ∃ a b s s', two_containers s_init = Ok (a, b) s
    ∧ swap 8 b a s = Ok tt s'
    ∧ contents b s' = Holds (VTableT T_int) v42
    ∧ get_mVTable a s' = Ok (Some (VTableT T_Big)) s'
    ∧ get_mObject a s' = Ok (obj_ptr 20) s'
    ∧ heap s' !! 20 = None
    ∧ contents a s' = Broken.
Proof.
  exists 0, 1. eexists _, _.
  split; [vm_compute; reflexivity|].
  repeat split; vm_compute; reflexivity.
Qed.

(** C2 (assignment of a raw value follows the placement rule of
    construction), evaluated where the code departs from it: a [double] has
    the size of the buffer of [Any<8>]; assigned to an empty container it is
    allocated in the free store (the test of line 380 is [<]), while
    construction from the same value places it in the buffer (the test of
    line 124 is [<=]). *)
Theorem assign_value_empty_at_capacity_allocates :
  sizeof T_double = 8
  ∧ (∃ a s1 s2, Any_ctor 8 s_init = Ok a s1
       ∧ assign_value 8 a T_double v_double s1 = Ok tt s2
       ∧ get_mVTable a s2 = Ok (Some (VTableT T_double)) s2
       ∧ get_mSBO a s2 = Ok false s2
       ∧ trace s2 = [EvNew T_double 0]
       ∧ count_new (trace s2) = 1)
  ∧ (∃ b s3, Any_value 8 T_double v_double s_init = Ok b s3
       ∧ get_mVTable b s3 = Ok (Some (VTableT T_double)) s3
       ∧ get_mSBO b s3 = Ok true s3
       ∧ trace s3 = []
       ∧ count_new (trace s3) = 0).
Proof.
  split; [reflexivity|]. split.
  - exists 0. eexists _, _.
    split; [vm_compute; reflexivity|].
    repeat split; vm_compute; reflexivity.
  - exists 0. eexists.
    split; [vm_compute; reflexivity|].
    repeat split; vm_compute; reflexivity.
Qed.

(** C3 (round trip of construction): for every payload type [T] and value
    [v] of that type, the container constructed from [v] answers [Is<T>()]
    with true, [TryGet<T>()] with a non-null pointer to a value equal to [v],
    and [Is<U>()] with false for every other type [U].  (Above the capacity
    the construction allocates, so the free store must have room.) *)
Theorem construct_roundtrip (SIZE : nat) (T : ty) (v : list byte) (s : State) :
  length v = sizeof T →
  (SIZE < sizeof T → heap_has_room s) →
  ∃ this s', Any_value SIZE T v s = Ok this s'
    ∧ Is T this s' = Ok true s'
    ∧ (∃ p, TryGet T this s' = Ok p s' ∧ p ≠ nullptr ∧ load T p s' = Ok v s')
    ∧ ∀ U, U ≠ T → Is U this s' = Ok false s'.
Proof.
  intros Hv Hroom. destruct s as [A H tr]. unfold heap_has_room in Hroom.
  cbn [heap] in Hroom.
  unfold Any_value. destruct (decide (sizeof T ≤ SIZE)) as [Hle|Hgt].
  - destruct (read_write_object T (write_mObject (replicate (UNION_SIZE SIZE) x00) nullptr) v)
      as (u & Hw & Hr & Hlen); [done| |].
    { rewrite length_replicate_union. rewrite Hv. by apply union_fits. }
    rewrite write_object_fits in Hw
      by (rewrite length_replicate_union, Hv; by apply union_fits).
    injection Hw as <-.
    eexists _, _. split; [run; reflexivity|].
    split; [by run|]. split.
    + exists (storage_ptr (fresh (dom A))). split; [by run|]. split; [done|].
      run. rewrite <- Hv. rewrite take_app_length. by run.
    + intros U HU. by run.
  - specialize (Hroom ltac:(lia)).
    eexists _, _. split.
    { run. rewrite Hroom. run. reflexivity. }
    split; [by run|]. split.
    + exists (obj_ptr (fresh (dom H))). split; [by run|]. split; [done|].
      by run.
    + intros U HU. by run.
Qed.

Lemma construct_roundtrip_witness :
  length v_Big = sizeof T_Big
  ∧ (8 < sizeof T_Big → heap_has_room s_init)
  ∧ ∃ this s', Any_value 8 T_Big v_Big s_init = Ok this s'
      ∧ Is T_Big this s' = Ok true s'
      ∧ (∃ p, TryGet T_Big this s' = Ok p s' ∧ p ≠ nullptr ∧ load T_Big p s' = Ok v_Big s')
      ∧ ∀ U, U ≠ T_Big → Is U this s' = Ok false s'.
Proof.
  split; [reflexivity|]. split; [intros _; reflexivity|].
  apply (construct_roundtrip 8 T_Big v_Big s_init); [reflexivity|intros _; reflexivity].
Defined.

(** C4 (size-threshold placement): construction from a value of a type with
    [sizeof(T) <= SIZE] stores the payload inline: the table of the type is
    bound, the flag is set to inline, the buffer of the new container starts
    with the bytes of the value, [TryGet<T>] returns the address of that
    buffer, and neither the free store nor the trace changes (no allocation);
    its destruction runs the destructor in place and deallocates nothing.
    With [sizeof(T) > SIZE] construction performs exactly one allocation, of
    the object that the pointer slot then names and that holds the value,
    and the destruction of the container performs exactly one deallocation,
    of that same object. *)
Theorem construct_placement (SIZE : nat) (T : ty) (v : list byte) (s : State) :
  length v = sizeof T →
  (SIZE < sizeof T → heap_has_room s) →
  ∃ this s', Any_value SIZE T v s = Ok this s'
    ∧ anys s !! this = None
    ∧ get_mVTable this s' = Ok (Some (VTableT T)) s'
    ∧ if decide (sizeof T ≤ SIZE) then
        get_mSBO this s' = Ok true s'
        ∧ (∃ u, get_mStorage this s' = Ok u s' ∧ take (sizeof T) u = v)
        ∧ TryGet T this s' = Ok (storage_ptr this) s'
        ∧ load T (storage_ptr this) s' = Ok v s'
        ∧ heap s' = heap s
        ∧ trace s' = trace s
        ∧ count_new (trace s') = count_new (trace s)
        ∧ ∃ s'', Any_dtor this s' = Ok tt s''
            ∧ heap s'' = heap s
            ∧ trace s'' = trace s ++ [EvDestructor T (storage_ptr this)]
            ∧ count_new (trace s'') = count_new (trace s)
            ∧ count_delete (trace s'') = count_delete (trace s)
      else
        ∃ k, get_mSBO this s' = Ok false s'
          ∧ get_mObject this s' = Ok (obj_ptr k) s'
          ∧ TryGet T this s' = Ok (obj_ptr k) s'
          ∧ load T (obj_ptr k) s' = Ok v s'
          ∧ heap s !! k = None
          ∧ heap s' = <[k := (T, v)]> (heap s)
          ∧ trace s' = trace s ++ [EvNew T k]
          ∧ count_new (trace s') = S (count_new (trace s))
          ∧ ∃ s'', Any_dtor this s' = Ok tt s''
              ∧ heap s'' = heap s
              ∧ trace s'' = trace s' ++ [EvDelete T k]
              ∧ count_new (trace s'') = count_new (trace s')
              ∧ count_delete (trace s'') = S (count_delete (trace s)).
Proof.
  intros Hv Hroom. destruct s as [A H tr]. unfold heap_has_room in Hroom.
  cbn [heap] in Hroom.
  unfold Any_value. destruct (decide (sizeof T ≤ SIZE)) as [Hle|Hgt].
  - assert (Hfit : length v ≤ UNION_SIZE SIZE) by (rewrite Hv; by apply union_fits).
    eexists _, _. split; [run; reflexivity|].
    split; [apply fresh_any_None|]. split; [by run|]. split; [by run|].
    split. { eexists. split; [by run|]. rewrite <- Hv. by rewrite take_app_length. }
    split; [by run|].
    split. { run. rewrite <- Hv. rewrite take_app_length. by run. }
    split; [done|]. split; [done|]. split; [done|].
    eexists. split; [by run|]. cbn [heap trace]. split; [done|]. split; [done|].
    split; count.
  - specialize (Hroom ltac:(lia)).
    eexists _, _. split.
    { run. rewrite Hroom. run. reflexivity. }
    split; [apply fresh_any_None|]. split; [by run|].
    exists (fresh (dom H)).
    split; [by run|]. split; [by run|]. split; [by run|]. split; [by run|].
    split; [apply fresh_heap_None|].
    split; [done|]. split; [done|].
    split. { cbn [trace]. count. }
    eexists. split.
    { run. reflexivity. }
    cbn [heap trace].
    split. { rewrite delete_insert_eq. apply delete_id, fresh_heap_None. }
    split; [done|].
    split; count.
Qed.

Lemma construct_placement_witness :
  (length v42 = sizeof T_int
   ∧ (8 < sizeof T_int → heap_has_room s_init)
   ∧ ∃ this s', Any_value 8 T_int v42 s_init = Ok this s'
       ∧ anys s_init !! this = None
       ∧ get_mVTable this s' = Ok (Some (VTableT T_int)) s'
       ∧ get_mSBO this s' = Ok true s'
       ∧ (∃ u, get_mStorage this s' = Ok u s' ∧ take (sizeof T_int) u = v42)
       ∧ TryGet T_int this s' = Ok (storage_ptr this) s'
       ∧ load T_int (storage_ptr this) s' = Ok v42 s'
       ∧ heap s' = heap s_init
       ∧ trace s' = trace s_init
       ∧ count_new (trace s') = count_new (trace s_init)
       ∧ ∃ s'', Any_dtor this s' = Ok tt s''
           ∧ heap s'' = heap s_init
           ∧ trace s'' = trace s_init ++ [EvDestructor T_int (storage_ptr this)]
           ∧ count_new (trace s'') = count_new (trace s_init)
           ∧ count_delete (trace s'') = count_delete (trace s_init))
  ∧ (length v_Big = sizeof T_Big
     ∧ (8 < sizeof T_Big → heap_has_room s_init)
     ∧ ∃ this s', Any_value 8 T_Big v_Big s_init = Ok this s'
         ∧ anys s_init !! this = None
         ∧ get_mVTable this s' = Ok (Some (VTableT T_Big)) s'
         ∧ ∃ k, get_mSBO this s' = Ok false s'
             ∧ get_mObject this s' = Ok (obj_ptr k) s'
             ∧ TryGet T_Big this s' = Ok (obj_ptr k) s'
             ∧ load T_Big (obj_ptr k) s' = Ok v_Big s'
             ∧ heap s_init !! k = None
             ∧ heap s' = <[k := (T_Big, v_Big)]> (heap s_init)
             ∧ trace s' = trace s_init ++ [EvNew T_Big k]
             ∧ count_new (trace s') = S (count_new (trace s_init))
             ∧ ∃ s'', Any_dtor this s' = Ok tt s''
                 ∧ heap s'' = heap s_init
                 ∧ trace s'' = trace s' ++ [EvDelete T_Big k]
                 ∧ count_new (trace s'') = count_new (trace s')
                 ∧ count_delete (trace s'') = S (count_delete (trace s_init))).
Proof.
  split.
  - split; [reflexivity|]. split; [intros _; reflexivity|].
    apply (construct_placement 8 T_int v42 s_init);
      [reflexivity|intros _; reflexivity].
  - split; [reflexivity|]. split; [intros _; reflexivity|].
    apply (construct_placement 8 T_Big v_Big s_init); [reflexivity|intros _; reflexivity].
Defined.

(** C8 (the empty container): a default-constructed container converts to
    false, and for every type [T] answers [Is<T>()] with false and
    [TryGet<T>()] with a null pointer; none of the three is an error. *)
Theorem default_constructed_empty (SIZE : nat) (s : State) (T : ty) :
  ∃ this s', Any_ctor SIZE s = Ok this s'
    ∧ operator_bool this s' = Ok false s'
    ∧ Is T this s' = Ok false s'
    ∧ TryGet T this s' = Ok nullptr s'.
Proof.
  destruct s as [A H tr].
  eexists _, _. split; [reflexivity|].
  repeat split; by run.
Qed.

(** C5 (reference mode): a container constructed from a handle to an
    externally owned object [k] stores the address of that object and
    allocates nothing; whatever value [w] the object is then given directly,
    [Get<T>] and [TryGet<T>] return the address of the object itself and
    reading through it yields [w]; destroying the container runs no
    destructor, frees nothing and leaves the object with its value; and each
    of the five operations of the reference-mode table leaves the whole state
    as it was. *)
Theorem reference_mode_aliasing
    (SIZE : nat) (T : ty) (k : nat) (v : list byte) (s : State) :
  heap s !! k = Some (T, v) →
  addressable (obj_ptr k) = true →
  ∃ this s', Any_handle SIZE T (Handle_of_object (obj_ptr k)) s = Ok this s'
    ∧ in_reference_mode s' this T (obj_ptr k)
    ∧ heap s' = heap s ∧ trace s' = trace s
    ∧ (∀ w, ∃ s'', store T (obj_ptr k) w s' = Ok tt s''
         ∧ Get T this s'' = Ok (obj_ptr k) s''
         ∧ TryGet T this s'' = Ok (obj_ptr k) s''
         ∧ load T (obj_ptr k) s'' = Ok w s''
         ∧ ∃ s''', Any_dtor this s'' = Ok tt s'''
             ∧ heap s''' = heap s'' ∧ trace s''' = trace s''
             ∧ load T (obj_ptr k) s''' = Ok w s''')
    ∧ (∀ (p : pointer) (to from : list byte) (SBO : bool) (st : State),
         VTable_Copy (VTableT_Handle T) p st = Ok p st
         ∧ VTable_Copy_SBO (VTableT_Handle T) to from st = Ok to st
         ∧ VTable_Move (VTableT_Handle T) p st = Ok p st
         ∧ VTable_Move_SBO (VTableT_Handle T) to from st = Ok to st
         ∧ VTable_Destroy (VTableT_Handle T) p SBO st = Ok tt st).
Proof.
  intros Hk Hp. destruct s as [A H tr]. cbn [heap] in Hk.
  eexists _, _. split; [by run|].
  split.
  { eexists. split; [by run|]. cbn [mVTable mSBO mUnion]. by run. }
  split; [done|]. split; [done|].
  split; [|done].
  intros w. eexists. split; [by run|].
  split; [by run|]. split; [by run|]. split; [by run|].
  eexists. split; [by run|].
  split; [done|]. split; [done|]. by run.
Qed.

Lemma reference_mode_aliasing_witness :
  heap s_extern !! 0 = Some (T_int, v42)
  ∧ addressable (obj_ptr 0) = true
  ∧ ∃ this s', Any_handle 8 T_int (Handle_of_object (obj_ptr 0)) s_extern = Ok this s'
      ∧ in_reference_mode s' this T_int (obj_ptr 0)
      ∧ heap s' = heap s_extern ∧ trace s' = trace s_extern
      ∧ (∀ w, ∃ s'', store T_int (obj_ptr 0) w s' = Ok tt s''
           ∧ Get T_int this s'' = Ok (obj_ptr 0) s''
           ∧ TryGet T_int this s'' = Ok (obj_ptr 0) s''
           ∧ load T_int (obj_ptr 0) s'' = Ok w s''
           ∧ ∃ s''', Any_dtor this s'' = Ok tt s'''
               ∧ heap s''' = heap s'' ∧ trace s''' = trace s''
               ∧ load T_int (obj_ptr 0) s''' = Ok w s''')
      ∧ (∀ (p : pointer) (to from : list byte) (SBO : bool) (st : State),
           VTable_Copy (VTableT_Handle T_int) p st = Ok p st
           ∧ VTable_Copy_SBO (VTableT_Handle T_int) to from st = Ok to st
           ∧ VTable_Move (VTableT_Handle T_int) p st = Ok p st
           ∧ VTable_Move_SBO (VTableT_Handle T_int) to from st = Ok to st
           ∧ VTable_Destroy (VTableT_Handle T_int) p SBO st = Ok tt st).
Proof.
  split; [reflexivity|]. split; [reflexivity|].
  apply (reference_mode_aliasing 8 T_int 0 v42 s_extern); reflexivity.
Defined.

(** C9 (assignment of a raw value to a container in reference mode): when
    the container is bound to the reference-mode table of [T], assigning a
    value of type [T] is the assignment through the stored pointer and
    nothing else; when that pointer names an externally owned [T], the object
    takes the new value, nothing is destroyed or allocated, and the container
    is unchanged, still in reference mode with the same pointer. *)
Theorem assign_value_through_reference
    (SIZE : nat) (T : ty) (this : nat) (p : pointer) (w : list byte) (s : State) :
  in_reference_mode s this T p →
  assign_value SIZE this T w s = store T p w s
  ∧ ∀ k v0, p = obj_ptr k → heap s !! k = Some (T, v0) →
      ∃ s', assign_value SIZE this T w s = Ok tt s'
        ∧ anys s' = anys s
        ∧ heap s' = <[k := (T, w)]> (heap s)
        ∧ trace s' = trace s
        ∧ in_reference_mode s' this T p.
Proof.
  intros (a & Ha & Hvt & Hsbo & Hptr).
  assert (E : assign_value SIZE this T w s = store T p w s).
  { destruct s as [A H tr]. cbn [anys] in Ha. destruct a as [vt u sbo].
    cbn [mVTable mSBO mUnion] in *. subst. by run. }
  split; [done|].
  intros k v0 -> Hk. rewrite E.
  destruct s as [A H tr]. cbn [anys heap] in *.
  eexists. split; [by run|].
  split; [done|]. split; [done|]. split; [done|].
  exists a. done.
Qed.

Lemma assign_value_through_reference_witness :
  in_reference_mode s_reference 0 T_int (obj_ptr 0)
  ∧ assign_value 8 0 T_int [x07; x00; x00; x00] s_reference
    = store T_int (obj_ptr 0) [x07; x00; x00; x00] s_reference
  ∧ ∀ k v0, obj_ptr 0 = obj_ptr k → heap s_reference !! k = Some (T_int, v0) →
      ∃ s', assign_value 8 0 T_int [x07; x00; x00; x00] s_reference = Ok tt s'
        ∧ anys s' = anys s_reference
        ∧ heap s' = <[k := (T_int, [x07; x00; x00; x00])]> (heap s_reference)
        ∧ trace s' = trace s_reference
        ∧ in_reference_mode s' 0 T_int (obj_ptr 0).
Proof.
  assert (Href : in_reference_mode s_reference 0 T_int (obj_ptr 0)).
  { eexists. split; [reflexivity|]. repeat split. }
  split; [exact Href|].
  apply (assign_value_through_reference 8 T_int 0 (obj_ptr 0) _ s_reference Href).
Defined.



(** The example states are proper states. *)
Lemma valid_s_inline : valid 8 s_inline 0.
Proof.
  eexists. split; [reflexivity|]. split; [reflexivity|].
  cbn [mVTable mSBO]. unfold sizeof, T_int. lia.
Defined.

Lemma valid_s_reference : valid 8 s_reference 0.
Proof.
  eexists. split; [reflexivity|]. split; [reflexivity|].
  cbn [mVTable mSBO]. split; [reflexivity|]. by exists v42.
Qed.


(** C6 (the source of a move construction): move construction from a
    non-empty container succeeds and leaves the source as it was; its table
    pointer and its storage-mode flag are unchanged, it is still non-empty,
    still in a proper state, and its destructor runs. *)
Theorem move_ctor_keeps_source
    (SIZE : nat) (other : nat) (vt : VTable) (sbo : bool) (s : State) :
  valid SIZE s other →
  get_mVTable other s = Ok (Some vt) s →
  get_mSBO other s = Ok sbo s →
  heap_has_room s →
  ∃ this s', Any_move SIZE other s = Ok this s'
    ∧ this ≠ other
    ∧ anys s' !! other = anys s !! other
    ∧ get_mVTable other s' = Ok (Some vt) s'
    ∧ get_mSBO other s' = Ok sbo s'
    ∧ operator_bool other s' = Ok true s'
    ∧ valid SIZE s' other
    ∧ ∃ s'', Any_dtor other s' = Ok tt s''.
Proof.
  intros (a & Ha & Hlen & Hst) Hvt Hsbo Hroom.
  destruct s as [A H tr]. unfold heap_has_room in Hroom. cbn [anys heap] in *.
  destruct a as [vt' u sbo']. cbn [mVTable mSBO mUnion] in *.
  revert Hvt Hsbo. run. intros [= ->] [= ->].
  pose proof (fresh_any_ne _ _ _ Ha) as Hne.
  assert (Hne' : other ≠ fresh (dom A)) by done.
  destruct vt as [T|T], sbo.
  - (* a value in the buffer *)
    eexists _, _. split; [run; reflexivity|].
    split; [done|]. split; [by run|]. split; [by run|]. split; [by run|].
    split; [by run|]. split.
    { exists (mkAny (Some (VTableT T)) u true). split; [by run|]. done. }
    eexists. by run.
  - (* a value in the free store *)
    destruct Hst as (k & v & Hp & Hk).
    pose proof (fresh_heap_ne _ _ _ Hk) as Hnk.
    eexists _, _. split.
    { run. rewrite Hroom. run. reflexivity. }
    split; [done|]. split; [by run|]. split; [by run|]. split; [by run|].
    split; [by run|]. split.
    { exists (mkAny (Some (VTableT T)) u false). split; [by run|]. split; [done|].
      cbn [mVTable mSBO mUnion heap]. exists k, v. split; [done|]. by run. }
    eexists. by run.
  - by destruct Hst.
  - (* reference mode *)
    destruct Hst as (_ & v & Hobj).
    eexists _, _. split; [by run|].
    split; [done|]. split; [by run|]. split; [by run|]. split; [by run|].
    split; [by run|]. split.
    { exists (mkAny (Some (VTableT_Handle T)) u false). split; [by run|]. split; [done|].
      cbn [mVTable mSBO mUnion]. split; [done|]. exists v.
      revert Hobj. unfold object_at. cbn [anys heap].
      destruct (bytes_ptr u) as [|k|i]; [done|done|].
      destruct (decide (i = fresh (dom A))) as [->|Hi].
      - by rewrite fresh_any_None.
      - by run. }
    eexists. by run.
Qed.

Lemma move_ctor_keeps_source_witness :
  valid 8 s_inline 0
  ∧ get_mVTable 0 s_inline = Ok (Some (VTableT T_int)) s_inline
  ∧ get_mSBO 0 s_inline = Ok true s_inline
  ∧ heap_has_room s_inline
  ∧ ∃ this s', Any_move 8 0 s_inline = Ok this s'
      ∧ this ≠ 0
      ∧ anys s' !! 0 = anys s_inline !! 0
      ∧ get_mVTable 0 s' = Ok (Some (VTableT T_int)) s'
      ∧ get_mSBO 0 s' = Ok true s'
      ∧ operator_bool 0 s' = Ok true s'
      ∧ valid 8 s' 0
      ∧ ∃ s'', Any_dtor 0 s' = Ok tt s''.
Proof.
  split; [exact valid_s_inline|]. split; [reflexivity|].
  split; [reflexivity|]. split; [reflexivity|].
  apply (move_ctor_keeps_source 8 0 (VTableT T_int) true s_inline valid_s_inline);
    reflexivity.
Defined.

(** C7 (self-assignment and self-swap): a container in a proper state, be it
    empty, a value in the buffer, a value in the free store or a reference,
    holds something readable; after [a = a] and after [swap(a, a)] it is in
    a proper state again and holds the same table and the same value. *)
Theorem self_assignment_and_self_swap (SIZE : nat) (a : nat) (s : State) :
  valid SIZE s a →
  heap_has_room s →
  contents a s ≠ Broken
  ∧ (∃ s', assign_copy SIZE a a s = Ok tt s'
       ∧ valid SIZE s' a
       ∧ contents a s' = contents a s)
  ∧ (∃ s', swap SIZE a a s = Ok tt s'
       ∧ valid SIZE s' a
       ∧ contents a s' = contents a s).
Proof.
  intros Hvalid Hroom.
  split; [|split]; [| |exists s; split; [by apply self_swap|done]].
  - destruct Hvalid as (r & Ha & Hlen & Hst).
    destruct s as [A H tr]. cbn [anys heap] in *.
    destruct r as [vt u sbo]. cbn [mVTable mSBO mUnion] in *.
    destruct vt as [[T|T]|], sbo; try (by destruct Hst); try done.
    + by rewrite (contents_inline SIZE (mkState A H tr) a _ T Ha).
    + destruct Hst as (k & v & Hp & Hk).
      by rewrite (contents_heap (mkState A H tr) a _ T k v Ha).
    + destruct Hst as (_ & v & Hobj).
      by rewrite (contents_reference (mkState A H tr) a _ T v Ha).
    + unfold contents. by run.
  - destruct Hvalid as (r & Ha & Hlen & Hst).
    destruct s as [A H tr]. unfold heap_has_room in Hroom. cbn [anys heap] in *.
    destruct r as [vt u sbo]. cbn [mVTable mSBO mUnion] in *.
    pose proof (fresh_any_ne _ _ _ Ha) as Hne.
    assert (Hne' : a ≠ fresh (dom A)) by done.
    destruct vt as [[T|T]|], sbo; try (by destruct Hst); try done.
    + (* a value in the buffer *)
      eexists. split; [run; buf; reflexivity|].
      split.
      * exists (mkAny (Some (VTableT T)) u true). split; [by run|]. done.
      * unfold contents. by run.
    + (* a value in the free store *)
      destruct Hst as (k & v & Hp & Hk).
      pose proof (fresh_heap_ne _ _ _ Hk) as Hnk.
      assert (Hnk' : k ≠ fresh (dom H)) by done.
      assert (Hak : addressable (obj_ptr k) = true)
        by (rewrite <- Hp; apply addressable_bytes_ptr).
      eexists. split; [run; rewrite Hroom; run; reflexivity|].
      split.
      * eexists. split; [by run|]. cbn [mVTable mSBO mUnion heap].
        split; [len|]. exists (fresh (dom H)), v. split; [by run|]. by run.
      * unfold contents. by run.
    + (* reference mode *)
      destruct Hst as (_ & v & Hobj).
      eexists. split; [run; reflexivity|].
      assert (Hobj' : ∀ B tr',
        B !! a = Some (mkAny (Some (VTableT_Handle T)) u false) →
        B !! fresh (dom A) = None →
        (∀ i, i ≠ a → i ≠ fresh (dom A) → B !! i = A !! i) →
        object_at (mkState B H tr') (bytes_ptr u) = Some (T, v)).
      { intros B tr' HBa HBt HB. revert Hobj. unfold object_at. cbn [anys heap].
        destruct (bytes_ptr u) as [|k|i]; [done|done|].
        destruct (decide (i = a)) as [->|Hia]; [by rewrite HBa, Ha|].
        destruct (decide (i = fresh (dom A))) as [->|Hit]; [by rewrite fresh_any_None|].
        by rewrite HB. }
      split.
      * eexists. split; [by run|]. cbn [mVTable mSBO mUnion].
        split; [done|]. split; [done|]. exists v.
        apply Hobj'; [by run|by run|]. intros i Hia Hit. by run.
      * rewrite (contents_reference (mkState A H tr) a _ T v Ha) by done.
        eapply contents_reference; [by run|done|done|].
        apply Hobj'; [by run|by run|]. intros i Hia Hit. by run.
    + (* empty *)
      eexists. split; [run; reflexivity|].
      split.
      * eexists. split; [by run|]. cbn [mVTable mSBO mUnion]. split; [len|done].
      * unfold contents. by run.
Qed.

Lemma self_assignment_and_self_swap_witness :
  valid 8 s_inline 0
  ∧ heap_has_room s_inline
  ∧ contents 0 s_inline ≠ Broken
  ∧ (∃ s', assign_copy 8 0 0 s_inline = Ok tt s'
       ∧ valid 8 s' 0
       ∧ contents 0 s' = contents 0 s_inline)
  ∧ (∃ s', swap 8 0 0 s_inline = Ok tt s'
       ∧ valid 8 s' 0
       ∧ contents 0 s' = contents 0 s_inline).
Proof.
  split; [exact valid_s_inline|]. split; [reflexivity|].
  apply (self_assignment_and_self_swap 8 0 s_inline valid_s_inline). reflexivity.
Defined.

(** * Further properties of the member functions *)

(** ** The example states are proper states *)

Ltac valid_example :=
  eexists; split; [reflexivity|]; split; [reflexivity|];
  first [ done
        | by (vm_compute; lia)
        | by (eexists _, _; split; reflexivity) ].

Lemma valid_s_empty : valid 8 s_empty 0.
Proof. valid_example. Qed.

Lemma valid_s_heap : valid 8 s_heap 0.
Proof. valid_example. Qed.

Lemma valid_s_two_inline_0 : valid 8 s_two_inline 0.
Proof. valid_example. Qed.

Lemma valid_s_two_inline_1 : valid 8 s_two_inline 1.
Proof. valid_example. Qed.

Lemma valid_s_two_heap_0 : valid 8 s_two_heap 0.
Proof. valid_example. Qed.

Lemma valid_s_two_heap_1 : valid 8 s_two_heap 1.
Proof. valid_example. Qed.

Lemma valid_s_empty_inline_0 : valid 8 s_empty_inline 0.
Proof. valid_example. Qed.

Lemma valid_s_empty_inline_1 : valid 8 s_empty_inline 1.
Proof. valid_example. Qed.

Lemma valid_s_heap_extern : valid 8 s_heap_extern 0.
Proof. valid_example. Qed.

(** ** Helpers *)

(** Objects stay where they are when the only containers rewritten hold
    nothing in their buffers, before and after. *)
Lemma object_at_frame (A B : gmap nat Any) H tr tr' (a b : nat) p :
  (∀ i, i ≠ a → i ≠ b → B !! i = A !! i) →
  (∀ r, A !! a = Some r → mSBO r = false) →
  (∀ r, B !! a = Some r → mSBO r = false) →
  (∀ r, A !! b = Some r → mSBO r = false) →
  (∀ r, B !! b = Some r → mSBO r = false) →
  object_at (mkState B H tr') p = object_at (mkState A H tr) p.
Proof.
  intros Hf HAa HBa HAb HBb. destruct p as [|k|i]; [done|done|].
  unfold object_at. cbn [anys].
  assert (Hcase : ∀ c, (∀ r, A !! c = Some r → mSBO r = false) →
                       (∀ r, B !! c = Some r → mSBO r = false) →
                       match B !! c with
                       | Some a0 =>
                           match mSBO a0, mVTable a0 with
                           | true, Some (VTableT T) =>
                               match read_object T (mUnion a0) with
                               | Some v => Some (T, v)
                               | None => None
                               end
                           | _, _ => None
                           end
                       | None => None
                       end =
                       match A !! c with
                       | Some a0 =>
                           match mSBO a0, mVTable a0 with
                           | true, Some (VTableT T) =>
                               match read_object T (mUnion a0) with
                               | Some v => Some (T, v)
                               | None => None
                               end
                           | _, _ => None
                           end
                       | None => None
                       end).
  { intros c HA HB.
    destruct (B !! c) as [rb|] eqn:EB, (A !! c) as [ra|] eqn:EA.
    - by rewrite (HB rb), (HA ra).
    - by rewrite (HB rb).
    - by rewrite (HA ra).
    - done. }
  destruct (decide (i = a)) as [->|Hia]; [by apply Hcase|].
  destruct (decide (i = b)) as [->|Hib]; [by apply Hcase|].
  by rewrite Hf.
Qed.

(** What a container that keeps nothing in its buffer holds. *)
Lemma contents_pointer_mode s this r :
  anys s !! this = Some r → mSBO r = false →
  contents this s =
    match mVTable r with
    | None => Empty
    | Some vt =>
        match object_at s (bytes_ptr (mUnion r)) with
        | Some (U, v) => if decide (U = held_type vt) then Holds vt v else Broken
        | None => Broken
        end
    end.
Proof.
  intros Hr Hsbo. destruct s as [A H tr], r as [vt u sbo].
  cbn [anys mVTable mSBO mUnion] in *. subst.
  unfold contents. destruct vt as [vt|]; [|by run].
  unfold Get, get_mVTable, get_mSBO, get_mObject, get_any, bind, ret, load.
  repeat run_step.
  destruct (object_at _ _) as [[U v]|]; [|done].
  by destruct (decide (U = held_type vt)).
Qed.

(** ** Destruction *)

(** X1: the destructor of a container in a proper state releases what the
    container owns exactly once: one in-place destructor call for a value in
    the buffer, one [delete] of the owned object for a value in the free
    store, nothing for an empty container or a reference; then the container
    itself is gone. *)
Theorem dtor_releases_once (SIZE : nat) (this : nat) (a : Any) (s : State) :
  valid SIZE s this →
  anys s !! this = Some a →
  ∃ s', Any_dtor this s = Ok tt s'
    ∧ anys s' = delete this (anys s)
    ∧ match mVTable a with
      | Some (VTableT T) =>
          if mSBO a then
            heap s' = heap s
            ∧ trace s' = trace s ++ [EvDestructor T (storage_ptr this)]
          else
            ∃ k, bytes_ptr (mUnion a) = obj_ptr k
              ∧ heap s' = delete k (heap s)
              ∧ trace s' = trace s ++ [EvDelete T k]
      | _ => heap s' = heap s ∧ trace s' = trace s
      end.
Proof.
  intros (r & Hr & Hlen & Hst) Ha. rewrite Hr in Ha. injection Ha as ->.
  destruct s as [A H tr], a as [vt u sbo]. cbn [anys heap mVTable mSBO mUnion] in *.
  destruct vt as [[T|T]|], sbo; try (by destruct Hst); try done.
  - eexists. split; [by run|]. done.
  - destruct Hst as (k & v & Hp & Hk).
    eexists. split; [by run|]. split; [done|]. exists k. done.
  - eexists. split; [by run|]. done.
  - eexists. split; [by run|]. done.
Qed.

Lemma dtor_releases_once_witness :
  valid 8 s_heap 0
  ∧ anys s_heap !! 0 = Some (heap_of T_Big 0)
  ∧ ∃ s', Any_dtor 0 s_heap = Ok tt s'
      ∧ anys s' = delete 0 (anys s_heap)
      ∧ ∃ k, bytes_ptr (mUnion (heap_of T_Big 0)) = obj_ptr k
          ∧ heap s' = delete k (heap s_heap)
          ∧ trace s' = trace s_heap ++ [EvDelete T_Big k].
Proof.
  split; [exact valid_s_heap|]. split; [reflexivity|].
  apply (dtor_releases_once 8 0 (heap_of T_Big 0) s_heap valid_s_heap). reflexivity.
Defined.

(** ** Copy and move construction *)

(** X2: copy construction and move construction from an empty container
    return at the null-table test: the new container is empty, the source is
    untouched, nothing is allocated. *)
Theorem copy_move_of_empty (SIZE : nat) (other : nat) (a : Any) (s : State) :
  anys s !! other = Some a →
  mVTable a = None →
  ∃ this s', Any_copy SIZE other s = Ok this s'
    ∧ Any_move SIZE other s = Ok this s'
    ∧ this ≠ other
    ∧ operator_bool this s' = Ok false s'
    ∧ contents this s' = Empty
    ∧ anys s' !! other = Some a
    ∧ heap s' = heap s ∧ trace s' = trace s.
Proof.
  intros Ha Hvt. destruct s as [A H tr], a as [vt u sbo].
  cbn [anys mVTable] in *. subst.
  pose proof (fresh_any_ne _ _ _ Ha) as Hne.
  assert (Hne' : other ≠ fresh (dom A)) by done.
  eexists _, _. split; [by run|]. split; [by run|]. split; [done|].
  split; [by run|]. split; [unfold contents; by run|]. split; [by run|]. done.
Qed.

Lemma copy_move_of_empty_witness :
  anys s_empty !! 0 = Some empty_any
  ∧ mVTable empty_any = None
  ∧ ∃ this s', Any_copy 8 0 s_empty = Ok this s'
      ∧ Any_move 8 0 s_empty = Ok this s'
      ∧ this ≠ 0
      ∧ operator_bool this s' = Ok false s'
      ∧ contents this s' = Empty
      ∧ anys s' !! 0 = Some empty_any
      ∧ heap s' = heap s_empty ∧ trace s' = trace s_empty.
Proof.
  split; [reflexivity|]. split; [reflexivity|].
  apply (copy_move_of_empty 8 0 empty_any s_empty); reflexivity.
Defined.

(** X3: the copy of a container that holds a value is independent of the
    original: both hold the value, the source is unchanged, and assigning a
    new value of the same type to either one afterwards changes that one
    only. *)
Theorem copy_ctor_independent
    (SIZE : nat) (other : nat) (T : ty) (s : State) :
  valid SIZE s other →
  get_mVTable other s = Ok (Some (VTableT T)) s →
  heap_has_room s →
  ∃ v this s1, contents other s = Holds (VTableT T) v
    ∧ Any_copy SIZE other s = Ok this s1
    ∧ this ≠ other
    ∧ anys s1 !! other = anys s !! other
    ∧ contents this s1 = Holds (VTableT T) v
    ∧ contents other s1 = Holds (VTableT T) v
    ∧ (∀ w, length w = sizeof T →
         (∃ s2, assign_value SIZE other T w s1 = Ok tt s2
            ∧ contents other s2 = Holds (VTableT T) w
            ∧ contents this s2 = Holds (VTableT T) v)
         ∧ (∃ s2, assign_value SIZE this T w s1 = Ok tt s2
            ∧ contents this s2 = Holds (VTableT T) w
            ∧ contents other s2 = Holds (VTableT T) v)).
Proof.
  intros (a & Ha & Hlen & Hst) Hvt Hroom.
  destruct s as [A H tr], a as [vt u sbo]. unfold heap_has_room in Hroom.
  cbn [anys heap mVTable mSBO mUnion] in *.
  revert Hvt. run. intros [= ->].
  pose proof (fresh_any_ne _ _ _ Ha) as Hne.
  assert (Hne' : other ≠ fresh (dom A)) by done.
  destruct sbo.
  - exists (take (sizeof T) u). eexists _, _.
    split; [by apply (contents_inline SIZE (mkState A H tr) other _ T Ha)|].
    split; [run; reflexivity|]. split; [done|]. split; [by run|].
    split. { erewrite (contents_inline SIZE _ (fresh (dom A))); [|by run|done|done|cbn [mUnion]; len|done].
             cbn [mUnion]. by buf. }
    split. { erewrite (contents_inline SIZE _ other); [|by run|done|done|done|done]. done. }
    intros w Hw. split.
    + eexists. split; [by run|]. split.
      * erewrite (contents_inline SIZE _ other); [|by run|done|done|cbn [mUnion]; len|done].
        cbn [mUnion]. rewrite <- Hw. by rewrite take_app_length.
      * erewrite (contents_inline SIZE _ (fresh (dom A))); [|by run|done|done|cbn [mUnion]; len|done].
        cbn [mUnion]. by buf.
    + eexists. split; [by run|]. split.
      * erewrite (contents_inline SIZE _ (fresh (dom A))); [|by run|done|done|cbn [mUnion]; len|done].
        cbn [mUnion]. rewrite <- Hw. by rewrite take_app_length.
      * erewrite (contents_inline SIZE _ other); [|by run|done|done|done|done]. done.
  - destruct Hst as (k & v & Hp & Hk).
    pose proof (fresh_heap_ne _ _ _ Hk) as Hnk.
    assert (Hnk' : k ≠ fresh (dom H)) by done.
    exists v. eexists _, _.
    split; [by apply (contents_heap (mkState A H tr) other _ T k v Ha)|].
    split; [run; rewrite Hroom; run; reflexivity|]. split; [done|]. split; [by run|].
    split. { eapply (contents_heap _ _ _ _ (fresh (dom H))); [by run|done|done|cbn [mUnion]; by run|by run]. }
    split. { eapply (contents_heap _ _ _ _ k); [by run|done|done|done|by run]. }
    intros w Hw. split.
    + eexists. split; [by run|]. split.
      * eapply (contents_heap _ _ _ _ k); [by run|done|done|done|by run].
      * eapply (contents_heap _ _ _ _ (fresh (dom H))); [by run|done|done|cbn [mUnion]; by run|by run].
    + eexists. split; [by run|]. split.
      * eapply (contents_heap _ _ _ _ (fresh (dom H))); [by run|done|done|cbn [mUnion]; by run|by run].
      * eapply (contents_heap _ _ _ _ k); [by run|done|done|done|by run].
Qed.

Lemma copy_ctor_independent_witness :
  valid 8 s_heap 0
  ∧ get_mVTable 0 s_heap = Ok (Some (VTableT T_Big)) s_heap
  ∧ heap_has_room s_heap
  ∧ ∃ v this s1, contents 0 s_heap = Holds (VTableT T_Big) v
      ∧ Any_copy 8 0 s_heap = Ok this s1
      ∧ this ≠ 0
      ∧ contents this s1 = Holds (VTableT T_Big) v.
Proof.
  split; [exact valid_s_heap|]. split; [reflexivity|]. split; [reflexivity|].
  destruct (copy_ctor_independent 8 0 T_Big s_heap valid_s_heap eq_refl eq_refl)
    as (v & this & s1 & H1 & H2 & H3 & _ & H4 & _).
  exists v, this, s1. auto.
Defined.

(** X4: move construction from a container whose value is in the free store
    does not take over the pointer: it allocates a second object holding the
    value and leaves the pointer slot of the source alone, so that
    destroying the source and then the new container deletes two different
    objects, each once. *)
Theorem move_ctor_allocates_anew
    (SIZE : nat) (other : nat) (T : ty) (s : State) :
  valid SIZE s other →
  get_mVTable other s = Ok (Some (VTableT T)) s →
  get_mSBO other s = Ok false s →
  heap_has_room s →
  ∃ v k k' this s1, contents other s = Holds (VTableT T) v
    ∧ get_mObject other s = Ok (obj_ptr k) s
    ∧ Any_move SIZE other s = Ok this s1
    ∧ get_mObject other s1 = Ok (obj_ptr k) s1
    ∧ get_mObject this s1 = Ok (obj_ptr k') s1
    ∧ k' ≠ k
    ∧ heap s1 = <[k' := (T, v)]> (heap s)
    ∧ trace s1 = trace s ++ [EvNew T k']
    ∧ contents this s1 = Holds (VTableT T) v
    ∧ contents other s1 = Holds (VTableT T) v
    ∧ ∃ s2 s3, Any_dtor other s1 = Ok tt s2
        ∧ Any_dtor this s2 = Ok tt s3
        ∧ trace s3 = trace s1 ++ [EvDelete T k; EvDelete T k']
        ∧ heap s3 = delete k (heap s).
Proof.
  intros (a & Ha & Hlen & Hst) Hvt Hsbo Hroom.
  destruct s as [A H tr], a as [vt u sbo]. unfold heap_has_room in Hroom.
  cbn [anys heap mVTable mSBO mUnion] in *.
  revert Hvt Hsbo. run. intros [= ->] [= ->].
  destruct Hst as (k & v & Hp & Hk).
  pose proof (fresh_any_ne _ _ _ Ha) as Hne.
  assert (Hne' : other ≠ fresh (dom A)) by done.
  pose proof (fresh_heap_ne _ _ _ Hk) as Hnk.
  assert (Hnk' : k ≠ fresh (dom H)) by done.
  exists v, k, (fresh (dom H)). eexists _, _.
  split; [by apply (contents_heap (mkState A H tr) other _ T k v Ha)|].
  split; [by run|].
  split; [run; rewrite Hroom; run; reflexivity|].
  split; [by run|]. split; [by run|]. split; [done|]. split; [done|]. split; [done|].
  split.
  { eapply (contents_heap _ _ _ _ (fresh (dom H))); [by run|done|done|cbn [mUnion]; by run|by run]. }
  split.
  { eapply (contents_heap _ _ _ _ k); [by run|done|done|done|by run]. }
  eexists _, _. split; [by run|]. split; [by run|].
  cbn [trace heap]. split; [by rewrite <- app_assoc|].
  rewrite delete_insert_ne by done. rewrite delete_insert_eq.
  by rewrite (delete_id (delete k H)) by (rewrite lookup_delete_ne by done; apply fresh_heap_None).
Qed.

Lemma move_ctor_allocates_anew_witness :
  valid 8 s_heap 0
  ∧ get_mVTable 0 s_heap = Ok (Some (VTableT T_Big)) s_heap
  ∧ get_mSBO 0 s_heap = Ok false s_heap
  ∧ heap_has_room s_heap
  ∧ ∃ k k' this s1, Any_move 8 0 s_heap = Ok this s1
      ∧ get_mObject 0 s1 = Ok (obj_ptr k) s1
      ∧ get_mObject this s1 = Ok (obj_ptr k') s1
      ∧ k' ≠ k.
Proof.
  split; [exact valid_s_heap|]. split; [reflexivity|]. split; [reflexivity|].
  split; [reflexivity|].
  destruct (move_ctor_allocates_anew 8 0 T_Big s_heap valid_s_heap eq_refl eq_refl eq_refl)
    as (v & k & k' & this & s1 & _ & _ & H1 & H2 & H3 & H4 & _).
  exists k, k', this, s1. auto.
Defined.

(** X5: the copy of a container in reference mode is shallow: it is in
    reference mode for the same external object, nothing is allocated, and a
    value assigned through the copy is the value the original reads. *)
Theorem copy_of_reference_is_shallow
    (SIZE : nat) (other : nat) (T : ty) (k : nat) (v : list byte) (s : State) :
  in_reference_mode s other T (obj_ptr k) →
  heap s !! k = Some (T, v) →
  ∃ this s1, Any_copy SIZE other s = Ok this s1
    ∧ this ≠ other
    ∧ in_reference_mode s1 this T (obj_ptr k)
    ∧ in_reference_mode s1 other T (obj_ptr k)
    ∧ heap s1 = heap s ∧ trace s1 = trace s
    ∧ contents this s1 = Holds (VTableT_Handle T) v
    ∧ ∀ w, ∃ s2, assign_value SIZE this T w s1 = Ok tt s2
        ∧ heap s2 !! k = Some (T, w)
        ∧ contents other s2 = Holds (VTableT_Handle T) w
        ∧ contents this s2 = Holds (VTableT_Handle T) w.
Proof.
  intros (a & Ha & Hvt & Hsbo & Hp) Hk.
  destruct s as [A H tr], a as [vt u sbo].
  cbn [anys heap mVTable mSBO mUnion] in *. subst.
  pose proof (fresh_any_ne _ _ _ Ha) as Hne.
  assert (Hne' : other ≠ fresh (dom A)) by done.
  assert (Hak : addressable (obj_ptr k) = true)
    by (rewrite <- Hp; apply addressable_bytes_ptr).
  eexists _, _. split; [by run|]. split; [done|].
  split. { eexists. split; [by run|]. cbn [mVTable mSBO mUnion]. by run. }
  split. { eexists. split; [by run|]. done. }
  split; [done|]. split; [done|].
  split. { eapply contents_reference; [by run|done|done|]. cbn [mUnion]. by run. }
  intros w. eexists. split; [by run|]. split; [by run|]. split.
  - eapply contents_reference; [by run|done|done|]. cbn [mUnion]. by run.
  - eapply contents_reference; [by run|done|done|]. cbn [mUnion]. by run.
Qed.

Lemma copy_of_reference_is_shallow_witness :
  in_reference_mode s_reference 0 T_int (obj_ptr 0)
  ∧ heap s_reference !! 0 = Some (T_int, v42)
  ∧ ∃ this s1, Any_copy 8 0 s_reference = Ok this s1
      ∧ this ≠ 0
      ∧ in_reference_mode s1 this T_int (obj_ptr 0)
      ∧ in_reference_mode s1 0 T_int (obj_ptr 0).
Proof.
  assert (Href : in_reference_mode s_reference 0 T_int (obj_ptr 0)).
  { eexists. split; [reflexivity|]. repeat split. }
  split; [exact Href|]. split; [reflexivity|].
  destruct (copy_of_reference_is_shallow 8 0 T_int 0 v42 s_reference Href eq_refl)
    as (this & s1 & H1 & H2 & H3 & H4 & _).
  exists this, s1. auto.
Defined.

(** ** Swap *)

(** X7: when neither container keeps a payload in its buffer (each is empty,
    owns an object of the free store, or is in reference mode), [swap]
    exchanges what the two hold by exchanging the pointer slots and the
    tables: nothing is allocated, constructed or destroyed, and both stay in
    a proper state. *)
Theorem swap_pointer_mode (SIZE : nat) (a b : nat) (s : State) :
  a ≠ b →
  valid SIZE s a → valid SIZE s b →
  get_mSBO a s = Ok false s →
  get_mSBO b s = Ok false s →
  ∃ s', swap SIZE a b s = Ok tt s'
    ∧ contents a s' = contents b s
    ∧ contents b s' = contents a s
    ∧ heap s' = heap s ∧ trace s' = trace s
    ∧ valid SIZE s' a ∧ valid SIZE s' b.
Proof.
  intros Hab (ra & Ha & Hla & Hsta) (rb & Hb & Hlb & Hstb) Hsa Hsb.
  destruct s as [A H tr], ra as [vta ua sa], rb as [vtb ub sb].
  cbn [anys heap mVTable mSBO mUnion] in *.
  revert Hsa Hsb. run. intros [= ->] [= ->].
  assert (Hba : b ≠ a) by done.
  eexists. split; [run; reflexivity|].
  match goal with |- context [contents a ?st] => set (s' := st) end.
  assert (Ha' : anys s' !! a = Some (mkAny vtb (write_mObject ua (bytes_ptr ub)) false))
    by (subst s'; by run).
  assert (Hb' : anys s' !! b = Some (mkAny vta (write_mObject ub (bytes_ptr ua)) false))
    by (subst s'; by run).
  assert (Hfr : ∀ p, object_at s' p = object_at (mkState A H tr) p).
  { intros p. subst s'. apply (object_at_frame _ _ _ _ _ a b).
    - intros i Hia Hib. by run.
    - intros r Hr. rewrite Ha in Hr. by injection Hr as <-.
    - intros r. run. by intros [= <-].
    - intros r Hr. rewrite Hb in Hr. by injection Hr as <-.
    - intros r. run. by intros [= <-]. }
  assert (Epa : bytes_ptr (write_mObject ua (bytes_ptr ub)) = bytes_ptr ub)
    by (apply bytes_ptr_write_mObject, addressable_bytes_ptr).
  assert (Epb : bytes_ptr (write_mObject ub (bytes_ptr ua)) = bytes_ptr ua)
    by (apply bytes_ptr_write_mObject, addressable_bytes_ptr).
  split.
  { rewrite (contents_pointer_mode s' a _ Ha'), (contents_pointer_mode (mkState A H tr) b _ Hb) by done.
    cbn [mVTable mUnion]. by rewrite Epa, Hfr. }
  split.
  { rewrite (contents_pointer_mode s' b _ Hb'), (contents_pointer_mode (mkState A H tr) a _ Ha) by done.
    cbn [mVTable mUnion]. by rewrite Epb, Hfr. }
  split; [done|]. split; [done|].
  split.
  - eexists. split; [exact Ha'|]. cbn [mVTable mSBO mUnion]. split; [len|].
    destruct vtb as [[T|T]|]; [| |done].
    + destruct Hstb as (k & v & Hp & Hk). exists k, v. by rewrite Epa.
    + destruct Hstb as (_ & v & Hobj). split; [done|]. exists v. by rewrite Epa, Hfr.
  - eexists. split; [exact Hb'|]. cbn [mVTable mSBO mUnion]. split; [len|].
    destruct vta as [[T|T]|]; [| |done].
    + destruct Hsta as (k & v & Hp & Hk). exists k, v. by rewrite Epb.
    + destruct Hsta as (_ & v & Hobj). split; [done|]. exists v. by rewrite Epb, Hfr.
Qed.

Lemma swap_pointer_mode_witness :
  0 ≠ 1
  ∧ valid 8 s_two_heap 0 ∧ valid 8 s_two_heap 1
  ∧ get_mSBO 0 s_two_heap = Ok false s_two_heap
  ∧ get_mSBO 1 s_two_heap = Ok false s_two_heap
  ∧ ∃ s', swap 8 0 1 s_two_heap = Ok tt s'
      ∧ contents 0 s' = contents 1 s_two_heap
      ∧ contents 1 s' = contents 0 s_two_heap
      ∧ heap s' = heap s_two_heap ∧ trace s' = trace s_two_heap
      ∧ valid 8 s' 0 ∧ valid 8 s' 1.
Proof.
  split; [done|]. split; [exact valid_s_two_heap_0|]. split; [exact valid_s_two_heap_1|].
  split; [reflexivity|]. split; [reflexivity|].
  apply (swap_pointer_mode 8 0 1 s_two_heap);
    [done|exact valid_s_two_heap_0|exact valid_s_two_heap_1|reflexivity|reflexivity].
Defined.

(** X8: [a.Swap(b)] with [a] empty and [b] holding a value in its buffer
    moves the value into [a] intact and leaves [b] empty; nothing is
    allocated or destroyed. *)
Theorem swap_empty_with_inline (SIZE : nat) (a b : nat) (s : State) :
  a ≠ b →
  valid SIZE s a → valid SIZE s b →
  get_mVTable a s = Ok None s →
  get_mSBO b s = Ok true s →
  ∃ s', swap SIZE a b s = Ok tt s'
    ∧ contents a s' = contents b s
    ∧ contents a s' ≠ Empty ∧ contents a s' ≠ Broken
    ∧ contents b s' = Empty
    ∧ heap s' = heap s ∧ trace s' = trace s
    ∧ valid SIZE s' a ∧ valid SIZE s' b.
Proof.
  intros Hab (ra & Ha & Hla & Hsta) (rb & Hb & Hlb & Hstb) Hva Hsb.
  destruct s as [A H tr], ra as [vta ua sa], rb as [vtb ub sb].
  cbn [anys heap mVTable mSBO mUnion] in *.
  revert Hva Hsb. run. intros [= ->] [= ->]. subst sa.
  assert (Hba : b ≠ a) by done.
  destruct vtb as [[T|T]|]; [|by destruct Hstb|done].
  eexists. split; [run; reflexivity|].
  rewrite (contents_inline SIZE (mkState A H tr) b _ T Hb) by done.
  split.
  { erewrite (contents_inline SIZE _ a); [|by run|done|done|cbn [mUnion]; len|done].
    cbn [mUnion]. by buf. }
  split.
  { erewrite (contents_inline SIZE _ a); [|by run|done|done|cbn [mUnion]; len|done]. done. }
  split.
  { erewrite (contents_inline SIZE _ a); [|by run|done|done|cbn [mUnion]; len|done]. done. }
  split; [unfold contents; by run|].
  split; [done|]. split; [done|]. split.
  - eexists. split; [by run|]. cbn [mVTable mSBO mUnion]. split; [len|done].
  - eexists. split; [by run|]. cbn [mVTable mSBO mUnion]. split; [len|done].
Qed.

Lemma swap_empty_with_inline_witness :
  0 ≠ 1
  ∧ valid 8 s_empty_inline 0 ∧ valid 8 s_empty_inline 1
  ∧ get_mVTable 0 s_empty_inline = Ok None s_empty_inline
  ∧ get_mSBO 1 s_empty_inline = Ok true s_empty_inline
  ∧ ∃ s', swap 8 0 1 s_empty_inline = Ok tt s'
      ∧ contents 0 s' = contents 1 s_empty_inline
      ∧ contents 0 s' ≠ Empty ∧ contents 0 s' ≠ Broken
      ∧ contents 1 s' = Empty
      ∧ heap s' = heap s_empty_inline ∧ trace s' = trace s_empty_inline
      ∧ valid 8 s' 0 ∧ valid 8 s' 1.
Proof.
  split; [done|].
  split; [exact valid_s_empty_inline_0|]. split; [exact valid_s_empty_inline_1|].
  split; [reflexivity|]. split; [reflexivity|].
  apply (swap_empty_with_inline 8 0 1 s_empty_inline);
    [done|exact valid_s_empty_inline_0|exact valid_s_empty_inline_1|reflexivity|reflexivity].
Defined.

(** An instance of [swap_inline_inline]. *)
Lemma swap_inline_inline_witness :
  ∃ s', swap 8 0 1 s_two_inline = Ok tt s'
    ∧ contents 0 s' = contents 1 s_two_inline
    ∧ contents 1 s' = contents 0 s_two_inline
    ∧ contents 0 s_two_inline = Holds (VTableT T_int) (take (sizeof T_int) (mUnion (inline_int v42)))
    ∧ contents 1 s_two_inline = Holds (VTableT T_int) (take (sizeof T_int) (mUnion (inline_int v7))).
Proof.
  apply (swap_inline_inline 8 0 1 s_two_inline (inline_int v42) (inline_int v7) T_int T_int);
    try reflexivity; try done; vm_compute; lia.
Defined.

(** ** Access *)

(** X9: for a container in a proper state, [TryGet<T>()] is null exactly
    when [Is<T>()] is false; when [Is<T>()] is true it returns the address
    [Get<T>()] returns, and a [T] is read through it. *)
Theorem TryGet_null_iff_not_Is (SIZE : nat) (T : ty) (this : nat) (s : State) :
  valid SIZE s this →
  ∃ p same, TryGet T this s = Ok p s
    ∧ Is T this s = Ok same s
    ∧ (p = nullptr ↔ same = false)
    ∧ (same = true → Get T this s = Ok p s ∧ ∃ v, load T p s = Ok v s).
Proof.
  intros (r & Hr & Hlen & Hst).
  destruct s as [A H tr], r as [vt u sbo]. cbn [anys heap mVTable mSBO mUnion] in *.
  destruct vt as [[U|U]|].
  - destruct (decide (U = T)) as [->|Hne].
    + destruct sbo.
      * exists (storage_ptr this), true. split; [by run|]. split; [by run|].
        split; [done|]. intros _. split; [by run|]. eexists. by run.
      * destruct Hst as (k & v & Hp & Hk).
        exists (obj_ptr k), true. split; [by run|]. split; [by run|].
        split; [done|]. intros _. split; [by run|]. exists v. by run.
    + exists nullptr, false. split; [by run|]. split; [by run|]. done.
  - destruct Hst as (-> & v & Hobj).
    destruct (decide (U = T)) as [->|Hne].
    + exists (bytes_ptr u), true. split; [by run|]. split; [by run|].
      split. { split; [|done]. intros E. rewrite E in Hobj. done. }
      intros _. split; [by run|]. exists v. unfold load. rewrite Hobj. by run.
    + exists nullptr, false. split; [by run|]. split; [by run|]. done.
  - exists nullptr, false. split; [by run|]. split; [by run|]. done.
Qed.

Lemma TryGet_null_iff_not_Is_witness :
  valid 8 s_inline 0
  ∧ ∃ p same, TryGet T_int 0 s_inline = Ok p s_inline
      ∧ Is T_int 0 s_inline = Ok same s_inline
      ∧ (p = nullptr ↔ same = false)
      ∧ (same = true →
         Get T_int 0 s_inline = Ok p s_inline ∧ ∃ v, load T_int p s_inline = Ok v s_inline).
Proof.
  split; [exact valid_s_inline|].
  apply (TryGet_null_iff_not_Is 8 T_int 0 s_inline valid_s_inline).
Defined.

(** ** Assignment of a raw value *)

(** X10: assigning a value of the type the container already holds assigns
    to the held object where it is: [TryGet<T>] returns the same address
    before and after, nothing is destroyed or allocated, and the container
    holds the new value. *)
Theorem assign_value_in_place (SIZE : nat) (T : ty) (this : nat) (w : list byte) (s : State) :
  valid SIZE s this →
  get_mVTable this s = Ok (Some (VTableT T)) s →
  length w = sizeof T →
  ∃ p s', assign_value SIZE this T w s = Ok tt s'
    ∧ contents this s' = Holds (VTableT T) w
    ∧ TryGet T this s = Ok p s
    ∧ TryGet T this s' = Ok p s'
    ∧ p ≠ nullptr
    ∧ trace s' = trace s
    ∧ dom (heap s') = dom (heap s)
    ∧ valid SIZE s' this.
Proof.
  intros (r & Hr & Hlen & Hst) Hvt Hw.
  destruct s as [A H tr], r as [vt u sbo]. cbn [anys heap mVTable mSBO mUnion] in *.
  revert Hvt. run. intros [= ->].
  destruct sbo.
  - exists (storage_ptr this). eexists. split; [by run|].
    split.
    { erewrite (contents_inline SIZE _ this); [|by run|done|done|cbn [mUnion]; len|done].
      cbn [mUnion]. rewrite <- Hw. by rewrite take_app_length. }
    split; [by run|]. split; [by run|]. split; [done|]. split; [done|]. split; [done|].
    eexists. split; [by run|]. cbn [mVTable mSBO mUnion]. split; [len|done].
  - destruct Hst as (k & v & Hp & Hk).
    exists (obj_ptr k). eexists. split; [by run|].
    split. { eapply (contents_heap _ _ _ _ k); [by run|done|done|done|by run]. }
    split; [by run|]. split; [by run|]. split; [done|]. split; [done|].
    split. { cbn [heap]. apply dom_insert_lookup_L. by eexists. }
    eexists. split; [by run|]. cbn [mVTable mSBO mUnion heap]. split; [done|].
    exists k, w. split; [done|]. by run.
Qed.

Lemma assign_value_in_place_witness :
  valid 8 s_heap 0
  ∧ get_mVTable 0 s_heap = Ok (Some (VTableT T_Big)) s_heap
  ∧ length v_Big' = sizeof T_Big
  ∧ ∃ p s', assign_value 8 0 T_Big v_Big' s_heap = Ok tt s'
      ∧ contents 0 s' = Holds (VTableT T_Big) v_Big'
      ∧ TryGet T_Big 0 s_heap = Ok p s_heap
      ∧ TryGet T_Big 0 s' = Ok p s'
      ∧ p ≠ nullptr
      ∧ trace s' = trace s_heap
      ∧ dom (heap s') = dom (heap s_heap)
      ∧ valid 8 s' 0.
Proof.
  split; [exact valid_s_heap|]. split; [reflexivity|]. split; [reflexivity|].
  apply (assign_value_in_place 8 T_Big 0 v_Big' s_heap valid_s_heap); reflexivity.
Defined.

(** Instances of the two branches of [operator=(T &&)] that construct a new
    object. *)
Lemma assign_value_other_type_witness :
  valid 8 s_inline 0
  ∧ operator_bool 0 s_inline = Ok true s_inline
  ∧ Is T_Big 0 s_inline = Ok false s_inline
  ∧ length v_Big = sizeof T_Big
  ∧ heap_has_room s_inline
  ∧ ∃ s', assign_value 8 0 T_Big v_Big s_inline = Ok tt s'
      ∧ get_mVTable 0 s' = Ok (Some (VTableT T_Big)) s'
      ∧ get_mSBO 0 s' = Ok (bool_decide (sizeof T_Big ≤ 8)) s'
      ∧ contents 0 s' = Holds (VTableT T_Big) v_Big.
Proof.
  split; [exact valid_s_inline|]. split; [reflexivity|]. split; [reflexivity|].
  split; [reflexivity|]. split; [reflexivity|].
  apply (assign_value_other_type 8 0 s_inline T_Big v_Big valid_s_inline); reflexivity.
Defined.

Lemma assign_value_empty_witness :
  anys s_empty !! 0 = Some empty_any
  ∧ mVTable empty_any = None
  ∧ length (mUnion empty_any) = UNION_SIZE 8
  ∧ length v42 = sizeof T_int
  ∧ heap_has_room s_empty
  ∧ ∃ s', assign_value 8 0 T_int v42 s_empty = Ok tt s'
      ∧ get_mVTable 0 s' = Ok (Some (VTableT T_int)) s'
      ∧ get_mSBO 0 s' = Ok (bool_decide (sizeof T_int < 8)) s'
      ∧ contents 0 s' = Holds (VTableT T_int) v42.
Proof.
  split; [reflexivity|]. split; [reflexivity|]. split; [reflexivity|].
  split; [reflexivity|]. split; [reflexivity|].
  apply (assign_value_empty 8 0 s_empty empty_any T_int v42); reflexivity.
Defined.

(** ** Assignment of a handle *)

(** X13: assigning a handle to a container that keeps nothing in its buffer
    (empty, owning an object of the free store, or already a reference)
    rebinds it to the reference-mode table of the handle's type with the
    handle's address; it then reads the external object.  An object of the
    free store it owned is deleted, once; nothing is allocated. *)
Theorem assign_handle_rebinds
    (SIZE : nat) (T : ty) (this k : nat) (v : list byte) (s : State) :
  valid SIZE s this →
  get_mSBO this s = Ok false s →
  heap s !! k = Some (T, v) →
  addressable (obj_ptr k) = true →
  ¬ owns s this k →
  ∃ s', assign_handle SIZE this T (Handle_of_object (obj_ptr k)) s = Ok tt s'
    ∧ in_reference_mode s' this T (obj_ptr k)
    ∧ contents this s' = Holds (VTableT_Handle T) v
    ∧ heap s' !! k = Some (T, v)
    ∧ count_new (trace s') = count_new (trace s)
    ∧ (∀ k0, owns s this k0 →
         heap s' = delete k0 (heap s) ∧ ∃ U, trace s' = trace s ++ [EvDelete U k0])
    ∧ ((∀ k0, ¬ owns s this k0) → heap s' = heap s ∧ trace s' = trace s).
Proof.
  intros (r & Hr & Hlen & Hst) Hsbo Hk Hak Hown.
  destruct s as [A H tr], r as [vt u sbo]. unfold owns in *.
  cbn [anys heap mVTable mSBO mUnion] in *.
  revert Hsbo. run. intros [= ->].
  pose proof (fresh_any_ne _ _ _ Hr) as Hne.
  assert (Hne' : this ≠ fresh (dom A)) by done.
  destruct vt as [[U|U]|].
  - destruct Hst as (k0 & v0 & Hp & Hk0).
    assert (Hkk : k0 ≠ k).
    { intros ->. apply Hown. by eexists _, _. }
    assert (Hak0 : addressable (obj_ptr k0) = true)
      by (rewrite <- Hp; apply addressable_bytes_ptr).
    eexists. split; [run; reflexivity|].
    split. { eexists. split; [by run|]. cbn [mVTable mSBO mUnion]. by run. }
    split. { eapply contents_reference; [by run|done|done|]. cbn [mUnion]. by run. }
    split; [by run|]. split; [cbn [trace]; count|].
    split.
    + intros k0' (a & U' & Ha & Hv & _ & Hp'). cbn [anys] in Ha. rewrite ?Hr in Ha. injection Ha as <-.
      cbn [mVTable mUnion] in *. injection Hv as <-. rewrite Hp in Hp'. injection Hp' as <-.
      split; [done|]. by exists U.
    + intros Hno. destruct (Hno k0). by eexists _, _.
  - destruct Hst as (_ & v0 & Hobj).
    eexists. split; [run; reflexivity|].
    split. { eexists. split; [by run|]. cbn [mVTable mSBO mUnion]. by run. }
    split. { eapply contents_reference; [by run|done|done|]. cbn [mUnion]. by run. }
    split; [done|]. split; [done|].
    split; [|done].
    intros k0' (a & U' & Ha & Hv & _). cbn [anys] in Ha. rewrite ?Hr in Ha. by injection Ha as <-.
  - eexists. split; [run; reflexivity|].
    split. { eexists. split; [by run|]. cbn [mVTable mSBO mUnion]. by run. }
    split. { eapply contents_reference; [by run|done|done|]. cbn [mUnion]. by run. }
    split; [done|]. split; [done|].
    split; [|done].
    intros k0' (a & U' & Ha & Hv & _). cbn [anys] in Ha. rewrite ?Hr in Ha. by injection Ha as <-.
Qed.

Lemma not_owns_s_heap_extern : ¬ owns s_heap_extern 0 1.
Proof.
  intros (a & T & Ha & _ & _ & Hp). vm_compute in Ha. injection Ha as <-.
  vm_compute in Hp. discriminate.
Qed.

Lemma assign_handle_rebinds_witness :
  valid 8 s_heap_extern 0
  ∧ get_mSBO 0 s_heap_extern = Ok false s_heap_extern
  ∧ heap s_heap_extern !! 1 = Some (T_int, v42)
  ∧ addressable (obj_ptr 1) = true
  ∧ ¬ owns s_heap_extern 0 1
  ∧ ∃ s', assign_handle 8 0 T_int (Handle_of_object (obj_ptr 1)) s_heap_extern = Ok tt s'
      ∧ in_reference_mode s' 0 T_int (obj_ptr 1)
      ∧ contents 0 s' = Holds (VTableT_Handle T_int) v42.
Proof.
  split; [exact valid_s_heap_extern|]. split; [reflexivity|]. split; [reflexivity|].
  split; [reflexivity|]. split; [exact not_owns_s_heap_extern|].
  destruct (assign_handle_rebinds 8 T_int 0 1 v42 s_heap_extern valid_s_heap_extern
              eq_refl eq_refl eq_refl not_owns_s_heap_extern)
    as (s' & H1 & H2 & H3 & _).
  exists s'. auto.
Defined.

(** ** Copy assignment between two containers *)

(** X14: [a = b] between two different containers in the same storage mode,
    neither in reference mode and not owning the same object: afterwards [a]
    holds what [b] holds, [b] is unchanged, both are in a proper state, the
    object [a] owned is gone from the free store, what [a] held was
    destroyed exactly once, and there was one allocation exactly when [b]
    holds a value in the free store. *)
Theorem assign_copy_same_mode (SIZE : nat) (a b : nat) (sbo : bool) (s : State) :
  a ≠ b →
  valid SIZE s a → valid SIZE s b →
  holds_value_or_nothing s a → holds_value_or_nothing s b →
  get_mSBO a s = Ok sbo s →
  get_mSBO b s = Ok sbo s →
  (∀ k, owns s a k → ¬ owns s b k) →
  heap_has_room s →
  ∃ s', assign_copy SIZE a b s = Ok tt s'
    ∧ contents a s' = contents b s
    ∧ contents b s' = contents b s
    ∧ anys s' !! b = anys s !! b
    ∧ valid SIZE s' a ∧ valid SIZE s' b
    ∧ (∀ k, owns s a k → heap s' !! k = None)
    ∧ count_delete (trace s') + count_destructor (trace s')
      = count_delete (trace s) + count_destructor (trace s)
        + match contents a s with Empty => 0 | _ => 1 end
    ∧ count_new (trace s')
      = count_new (trace s)
        + match contents b s with Empty => 0 | _ => if sbo then 0 else 1 end.
Proof.
  intros Hab (ra & Ha & Hla & Hsta) (rb & Hb & Hlb & Hstb) Hna Hnb Hsa Hsb Hown Hroom.
  destruct s as [A H tr], ra as [vta ua sa], rb as [vtb ub sb].
  unfold heap_has_room, holds_value_or_nothing in *.
  cbn [anys heap mVTable mSBO mUnion] in *.
  revert Hsa Hsb Hna Hnb. run. intros [= ->] [= ->] Hna Hnb.
  assert (Hba : b ≠ a) by done.
  pose proof (fresh_any_ne _ _ _ Ha) as Hta.
  pose proof (fresh_any_ne _ _ _ Hb) as Htb.
  assert (Hta' : a ≠ fresh (dom A)) by done.
  assert (Htb' : b ≠ fresh (dom A)) by done.
  destruct vta as [[Ta|Ta]|]; [|by destruct (Hna Ta)|];
    (destruct vtb as [[Tb|Tb]|]; [|by destruct (Hnb Tb)|]);
    destruct sbo; try (by destruct Hsta); try (by destruct Hstb); try done.
  - (* both in their buffers *)
    eexists. split; [run; buf; reflexivity|].
    rewrite (contents_inline SIZE (mkState A H tr) b _ Tb Hb) by done.
    rewrite (contents_inline SIZE (mkState A H tr) a _ Ta Ha) by done.
    split. { erewrite (contents_inline SIZE _ a); [|by run|done|done|cbn [mUnion]; len|done].
             cbn [mUnion]. by buf. }
    split. { by erewrite (contents_inline SIZE _ b); [|by run|done|done|done|done]. }
    split; [by run|].
    split. { eexists. split; [by run|]. cbn [mVTable mSBO mUnion]. split; [len|done]. }
    split. { eexists. split; [by run|]. done. }
    split. { intros k (r & T & Hr & _ & Hs & _). cbn [anys] in Hr. rewrite ?Ha in Hr. by injection Hr as <-. }
    cbn [trace]. split; count.
  - (* both in the free store *)
    destruct Hsta as (ka & va & Hpa & Hka). destruct Hstb as (kb & vb & Hpb & Hkb).
    assert (Hkab : ka ≠ kb).
    { intros ->. apply (Hown kb); eexists _, _; eauto. }
    pose proof (fresh_heap_ne _ _ _ Hka) as Hfa. pose proof (fresh_heap_ne _ _ _ Hkb) as Hfb.
    assert (Hfa' : ka ≠ fresh (dom H)) by done. assert (Hfb' : kb ≠ fresh (dom H)) by done.
    assert (Haa : addressable (obj_ptr ka) = true)
      by (rewrite <- Hpa; apply addressable_bytes_ptr).
    eexists. split; [run; rewrite Hroom; run; reflexivity|].
    rewrite (contents_heap (mkState A H tr) b _ Tb kb vb Hb) by done.
    rewrite (contents_heap (mkState A H tr) a _ Ta ka va Ha) by done.
    split. { eapply (contents_heap _ _ _ _ (fresh (dom H))); [by run|done|done|cbn [mUnion]; by run|by run]. }
    split. { eapply (contents_heap _ _ _ _ kb); [by run|done|done|done|by run]. }
    split; [by run|].
    split. { eexists. split; [by run|]. cbn [mVTable mSBO mUnion heap]. split; [len|].
             exists (fresh (dom H)), vb. split; by run. }
    split. { eexists. split; [by run|]. split; [done|]. cbn [mVTable mSBO mUnion heap].
             exists kb, vb. split; [done|]. by run. }
    split. { intros k (r & T & Hr & _ & _ & Hp). cbn [anys] in Hr. rewrite ?Ha in Hr. injection Hr as <-.
             cbn [mUnion] in Hp. rewrite Hpa in Hp. injection Hp as <-. by run. }
    cbn [trace]. split; count.
  - (* a value in the free store, replaced by nothing *)
    destruct Hsta as (ka & va & Hpa & Hka).
    assert (Haa : addressable (obj_ptr ka) = true)
      by (rewrite <- Hpa; apply addressable_bytes_ptr).
    eexists. split; [run; reflexivity|].
    rewrite (contents_heap (mkState A H tr) a _ Ta ka va Ha) by done.
    split; [unfold contents; by run|]. split; [unfold contents; by run|].
    split; [by run|].
    split. { eexists. split; [by run|]. cbn [mVTable mSBO mUnion]. split; [len|done]. }
    split. { eexists. split; [by run|]. done. }
    split. { intros k (r & T & Hr & _ & _ & Hp). cbn [anys] in Hr. rewrite ?Ha in Hr. injection Hr as <-.
             cbn [mUnion] in Hp. rewrite Hpa in Hp. injection Hp as <-. by run. }
    cbn [trace]. split; [count|]. unfold contents. run. count.
  - (* nothing, replaced by a value of the free store *)
    destruct Hstb as (kb & vb & Hpb & Hkb).
    pose proof (fresh_heap_ne _ _ _ Hkb) as Hfb.
    assert (Hfb' : kb ≠ fresh (dom H)) by done.
    eexists. split; [run; rewrite Hroom; run; reflexivity|].
    rewrite (contents_heap (mkState A H tr) b _ Tb kb vb Hb) by done.
    split. { eapply (contents_heap _ _ _ _ (fresh (dom H))); [by run|done|done|cbn [mUnion]; by run|by run]. }
    split. { eapply (contents_heap _ _ _ _ kb); [by run|done|done|done|by run]. }
    split; [by run|].
    split. { eexists. split; [by run|]. cbn [mVTable mSBO mUnion heap]. split; [len|].
             exists (fresh (dom H)), vb. split; by run. }
    split. { eexists. split; [by run|]. split; [done|]. cbn [mVTable mSBO mUnion heap].
             exists kb, vb. split; [done|]. by run. }
    split. { intros k (r & T & Hr & Hv & _). cbn [anys] in Hr. rewrite ?Ha in Hr. by injection Hr as <-. }
    assert (E : contents a (mkState A H tr) = Empty) by (unfold contents; by run).
    rewrite E. cbn [trace]. split; count.
  - (* nothing, replaced by nothing *)
    eexists. split; [run; reflexivity|].
    split; [unfold contents; by run|]. split; [unfold contents; by run|].
    split; [by run|].
    split. { eexists. split; [by run|]. cbn [mVTable mSBO mUnion]. split; [len|done]. }
    split. { eexists. split; [by run|]. done. }
    split. { intros k (r & T & Hr & Hv & _). cbn [anys] in Hr. rewrite ?Ha in Hr. by injection Hr as <-. }
    cbn [trace]. split; unfold contents; run; lia.
Qed.

Lemma not_reference_s_two_heap (i : nat) : holds_value_or_nothing s_two_heap i.
Proof.
  intros T E. unfold get_mVTable, get_any, bind, ret in E. cbn [anys s_two_heap] in E.
  destruct (_ !! i) as [a|] eqn:Ei; [|done].
  injection E as E.
  destruct (decide (i = 1)) as [->|Hi].
  - rewrite lookup_insert_eq in Ei. injection Ei as <-. done.
  - rewrite lookup_insert_ne in Ei by done.
    destruct (decide (i = 0)) as [->|Hi0].
    + rewrite lookup_singleton_eq in Ei. injection Ei as <-. done.
    + by rewrite lookup_singleton_ne in Ei.
Qed.

Lemma owns_apart_s_two_heap (k : nat) : owns s_two_heap 0 k → ¬ owns s_two_heap 1 k.
Proof.
  intros (a & T & Ha & _ & _ & Hp) (b & T' & Hb & _ & _ & Hp').
  vm_compute in Ha. injection Ha as <-. vm_compute in Hb. injection Hb as <-.
  vm_compute in Hp. vm_compute in Hp'. congruence.
Qed.

Lemma assign_copy_same_mode_witness :
  0 ≠ 1
  ∧ valid 8 s_two_heap 0 ∧ valid 8 s_two_heap 1
  ∧ get_mSBO 0 s_two_heap = Ok false s_two_heap
  ∧ get_mSBO 1 s_two_heap = Ok false s_two_heap
  ∧ heap_has_room s_two_heap
  ∧ ∃ s', assign_copy 8 0 1 s_two_heap = Ok tt s'
      ∧ contents 0 s' = contents 1 s_two_heap
      ∧ contents 1 s' = contents 1 s_two_heap.
Proof.
  split; [done|]. split; [exact valid_s_two_heap_0|]. split; [exact valid_s_two_heap_1|].
  split; [reflexivity|]. split; [reflexivity|]. split; [reflexivity|].
  destruct (assign_copy_same_mode 8 0 1 false s_two_heap ltac:(done)
              valid_s_two_heap_0 valid_s_two_heap_1
              (not_reference_s_two_heap 0) (not_reference_s_two_heap 1)
              eq_refl eq_refl owns_apart_s_two_heap eq_refl)
    as (s' & H1 & H2 & H3 & _).
  exists s'. auto.
Defined.

(** X15: [a = b] with [a] owning an object of the free store and [b]
    holding a value in its buffer.  The temporary is swapped in through
    lines 419-426, so the pointer it is left with is read from the slot of
    [a] after the payload was moved over it.  When those bytes are a null
    pointer the assignment completes, [a] holds the value of [b], and the
    object [a] owned is neither deleted nor reachable; when they name the
    buffer of a container or no live object of the type, the destructor of
    the temporary deletes through them and the behaviour is undefined. *)
Theorem assign_copy_heap_from_inline
    (SIZE : nat) (a b : nat) (ra rb : Any) (Ta Tb : ty) (ka : nat) (va : list byte)
    (s : State) :
  a ≠ b →
  anys s !! a = Some ra → anys s !! b = Some rb →
  mVTable ra = Some (VTableT Ta) → mSBO ra = false →
  bytes_ptr (mUnion ra) = obj_ptr ka → heap s !! ka = Some (Ta, va) →
  mVTable rb = Some (VTableT Tb) → mSBO rb = true → sizeof Tb ≤ SIZE →
  length (mUnion ra) = UNION_SIZE SIZE → length (mUnion rb) = UNION_SIZE SIZE →
  let q := bytes_ptr (take (sizeof Tb) (mUnion rb) ++ drop (sizeof Tb) (mUnion ra)) in
  (q = nullptr →
     ∃ s', assign_copy SIZE a b s = Ok tt s'
       ∧ contents a s' = contents b s
       ∧ heap s' = heap s
       ∧ trace s' = trace s)
  ∧ ((∃ i, q = storage_ptr i) ∨ (∃ k, q = obj_ptr k ∧ ∀ v, heap s !! k ≠ Some (Ta, v)) →
     assign_copy SIZE a b s = Undefined).
Proof.
  intros Hab Ha Hb Hva Hsa Hpa Hka Hvb Hsb Hfit Hla Hlb q.
  destruct s as [A H tr], ra as [vta ua sa], rb as [vtb ub sb].
  cbn [anys heap mVTable mSBO mUnion] in *. subst.
  assert (Hba : b ≠ a) by done.
  pose proof (fresh_any_ne _ _ _ Ha) as Hta.
  pose proof (fresh_any_ne _ _ _ Hb) as Htb.
  assert (Hta' : a ≠ fresh (dom A)) by done.
  assert (Htb' : b ≠ fresh (dom A)) by done.
  split.
  - intros Hq. eexists. split.
    { run. buf. fold q. rewrite Hq. run. reflexivity. }
    rewrite (contents_inline SIZE (mkState A H tr) b _ Tb Hb) by done.
    split; [|done].
    erewrite (contents_inline SIZE _ a); [|by run|done|done|cbn [mUnion]; len|done].
    cbn [mUnion]. by buf.
  - intros [[i Hq]|(k & Hq & Hk)].
    + run. buf. fold q. rewrite Hq. by run.
    + run. buf. fold q. rewrite Hq. run.
      destruct (H !! k) as [[U v]|] eqn:E; [|done].
      destruct (decide (U = Ta)) as [->|]; [by destruct (Hk v)|done].
Qed.

Lemma assign_copy_heap_from_inline_witness :
  (∃ k, bytes_ptr (take (sizeof T_int) (mUnion (inline_int v42))
                   ++ drop (sizeof T_int) (mUnion (heap_of T_Big 0))) = obj_ptr k
        ∧ ∀ v, heap s_heap_inline !! k ≠ Some (T_Big, v))
  ∧ assign_copy 8 0 1 s_heap_inline = Undefined.
Proof.
  assert (Hq : ∃ k, bytes_ptr (take (sizeof T_int) (mUnion (inline_int v42))
                               ++ drop (sizeof T_int) (mUnion (heap_of T_Big 0))) = obj_ptr k
                    ∧ ∀ v, heap s_heap_inline !! k ≠ Some (T_Big, v)).
  { exists 20. split; [reflexivity|]. intros v E. vm_compute in E. discriminate. }
  split; [exact Hq|].
  apply (assign_copy_heap_from_inline 8 0 1 (heap_of T_Big 0) (inline_int v42)
           T_Big T_int 0 v_Big s_heap_inline);
    try reflexivity; try done; [vm_compute; lia|].
  right. exact Hq.
Defined.

(** ** A reference to the payload of another container *)

(** X16: a container constructed from [Handle<T>(a.Get<T>())], where [a]
    holds a [T] by value, reads the payload of [a] and allocates nothing; a
    value assigned through it is the value [a] then holds.  It does not keep
    the payload alive: once [a] is destroyed it still answers [Is<T>()] with
    true, but nothing is read through it any more. *)
Theorem reference_to_container_payload
    (SIZE : nat) (T : ty) (object : nat) (s : State) :
  valid SIZE s object →
  get_mVTable object s = Ok (Some (VTableT T)) s →
  addressable (storage_ptr object) = true →
  ∃ v p b s1, contents object s = Holds (VTableT T) v
    ∧ Get T object s = Ok p s
    ∧ Any_handle SIZE T (Handle_of_object p) s = Ok b s1
    ∧ b ≠ object
    ∧ heap s1 = heap s ∧ trace s1 = trace s
    ∧ contents b s1 = Holds (VTableT_Handle T) v
    ∧ contents object s1 = Holds (VTableT T) v
    ∧ (∀ w, length w = sizeof T →
         ∃ s2, assign_value SIZE b T w s1 = Ok tt s2
           ∧ contents object s2 = Holds (VTableT T) w
           ∧ contents b s2 = Holds (VTableT_Handle T) w
           ∧ trace s2 = trace s1)
    ∧ (∃ s3, Any_dtor object s1 = Ok tt s3
         ∧ contents b s3 = Broken
         ∧ Is T b s3 = Ok true s3).
Proof.
  intros (a & Ha & Hlen & Hst) Hvt Hsp.
  destruct s as [A H tr], a as [vt u sbo]. cbn [anys heap mVTable mSBO mUnion] in *.
  revert Hvt. run. intros [= ->].
  pose proof (fresh_any_ne _ _ _ Ha) as Hne.
  assert (Hne' : object ≠ fresh (dom A)) by done.
  destruct sbo.
  - exists (take (sizeof T) u), (storage_ptr object). eexists _, _.
    split; [by apply (contents_inline SIZE (mkState A H tr) object _ T Ha)|].
    split; [by run|]. split; [by run|]. split; [done|]. split; [done|]. split; [done|].
    split. { eapply contents_reference; [by run|done|done|]. cbn [mUnion]. by run. }
    split. { by erewrite (contents_inline SIZE _ object); [|by run|done|done|done|done]. }
    split.
    + intros w Hw. eexists. split; [by run|].
      split. { erewrite (contents_inline SIZE _ object); [|by run|done|done|cbn [mUnion]; len|done].
               cbn [mUnion]. rewrite <- Hw. by rewrite take_app_length. }
      split; [|done].
      eapply contents_reference; [by run|done|done|]. cbn [mUnion]. run.
      rewrite <- Hw. by rewrite take_app_length.
    + eexists. split; [by run|]. split; [unfold contents; by run|]. by run.
  - destruct Hst as (k & v & Hp & Hk).
    assert (Hak : addressable (obj_ptr k) = true)
      by (rewrite <- Hp; apply addressable_bytes_ptr).
    exists v, (obj_ptr k). eexists _, _.
    split; [by apply (contents_heap (mkState A H tr) object _ T k v Ha)|].
    split; [by run|]. split; [by run|]. split; [done|]. split; [done|]. split; [done|].
    split. { eapply contents_reference; [by run|done|done|]. cbn [mUnion]. by run. }
    split. { eapply (contents_heap _ _ _ _ k); [by run|done|done|done|by run]. }
    split.
    + intros w Hw. eexists. split; [by run|].
      split. { eapply (contents_heap _ _ _ _ k); [by run|done|done|done|by run]. }
      split; [|done].
      eapply contents_reference; [by run|done|done|]. cbn [mUnion]. by run.
    + eexists. split; [by run|]. split; [unfold contents; by run|]. by run.
Qed.

Lemma reference_to_container_payload_witness :
  valid 8 s_inline 0
  ∧ get_mVTable 0 s_inline = Ok (Some (VTableT T_int)) s_inline
  ∧ addressable (storage_ptr 0) = true
  ∧ ∃ v p b s1, contents 0 s_inline = Holds (VTableT T_int) v
      ∧ Get T_int 0 s_inline = Ok p s_inline
      ∧ Any_handle 8 T_int (Handle_of_object p) s_inline = Ok b s1
      ∧ b ≠ 0
      ∧ contents b s1 = Holds (VTableT_Handle T_int) v.
Proof.
  split; [exact valid_s_inline|]. split; [reflexivity|]. split; [reflexivity|].
  destruct (reference_to_container_payload 8 T_int 0 s_inline valid_s_inline eq_refl eq_refl)
    as (v & p & b & s1 & H1 & H2 & H3 & H4 & _ & _ & H5 & _).
  exists v, p, b, s1. auto.
Defined.
